(** * AICoder: the workflow controller and the diagram transformer of
      [src/App.tsx], embedded and checked against the specification.

    The component [DatabaseDesignApp] keeps seven pieces of React state, reads
    four input elements through refs, talks to two HTTP end points through
    axios and turns the design it receives into Mermaid [erDiagram] text.

    Layout of this development:
    - [JS]: the part of the JavaScript runtime the handlers rely on (values as
      JSON delivers them, property reads, template-literal conversion,
      [Array.prototype.forEach], [JSON.stringify]);
    - [Erd]: [generateMermaidERD];
    - [App]: the component state, a state-and-exception monad for the
      handlers, the handlers themselves, and the event system formed by the
      rendered controls;
    - the theorems. *)

From Stdlib Require Import String Ascii List Bool Arith Lia.
Import ListNotations.
Local Open Scope string_scope.
#[local] Set Warnings "-register-all".
#[local] Set Warnings "-automation".
#[local] Set Warnings "-default".

(** ** Strings *)

Definition nl : string := String "010"%char EmptyString.
Definition dquote : string := String "034"%char EmptyString.
Definition backslash : string := String "092"%char EmptyString.

(** Plain concatenation of a list of strings (no separator). *)
Fixpoint concat_all (ss : list string) : string :=
  match ss with
  | [] => ""
  | s :: rest => s ++ concat_all rest
  end.

(** ** Exceptions *)

(** What a [try] block of the handlers can catch: a [TypeError] raised by the
    runtime, or the rejection of the promise returned by [axios.post]. *)
Inductive exn : Type :=
| TypeError
| AxiosError.

Inductive result (A : Type) : Type :=
| Ok (a : A)
| Throw (e : exn).
Arguments Ok {A} a.
Arguments Throw {A} e.

Definition rbind {A B} (r : result A) (k : A -> result B) : result B :=
  match r with
  | Ok a => k a
  | Throw e => Throw e
  end.

Declare Scope result_scope.
Delimit Scope result_scope with result.
Notation "x <- r ;; k" := (rbind r (fun x => k))
  (at level 61, r at next level, right associativity) : result_scope.

(** ** The JavaScript values the handlers meet *)

Module JS.

(** A JavaScript number is an IEEE double. The handlers do three things with
    one: convert it to text, test it for truthiness, serialise it. A number
    is therefore given by what these three yield: the text [Number::toString]
    produces for it ([7], [1.5], [1e+21], [NaN], ...), whether it is falsy
    ([+0], [-0] or [NaN]), and whether it is finite. Every double has such a
    description, and nothing below depends on which descriptions belong to a
    double. *)
Record number : Type := mkNumber {
  num_text : string;
  num_falsy : bool;
  num_finite : bool
}.

(** Values as [JSON.parse] produces them, plus [undefined] (the result of
    reading a missing property, and the value of [path]/[url] in the request
    literal). The fields of an object are its own properties in enumeration
    order. *)
Inductive value : Type :=
| VUndefined
| VNull
| VBool (b : bool)
| VNum (n : number)
| VStr (s : string)
| VArr (items : list value)
| VObj (fields : list (string * value)).

Fixpoint lookup (k : string) (fields : list (string * value)) : option value :=
  match fields with
  | [] => None
  | (k', v) :: rest => if String.eqb k k' then Some v else lookup k rest
  end.

Definition has_own (k : string) (fields : list (string * value)) : bool :=
  match lookup k fields with Some _ => true | None => false end.

(** [v.k] for the property names the source uses ([token],
    [designRecommendations], [tables], [name], [columns], [type], [nullable],
    [relationships], [targetTable]): none of them lives on a prototype, so
    the read sees own properties only.  Reading from [undefined] or [null]
    throws. *)
Definition get_prop (v : value) (k : string) : result value :=
  match v with
  | VUndefined | VNull => Throw TypeError
  | VObj fields =>
      match lookup k fields with
      | Some x => Ok x
      | None => Ok VUndefined
      end
  | _ => Ok VUndefined
  end.

(** [ToBoolean]. *)
Definition truthy (v : value) : bool :=
  match v with
  | VUndefined | VNull => false
  | VBool b => b
  | VNum n => negb (num_falsy n)
  | VStr s => negb (String.eqb s "")
  | VArr _ | VObj _ => true
  end.

(** [Number::toString]. *)
Definition num_to_string (n : number) : string := num_text n.

(** [Array.prototype.join] with separator [sep] over already converted
    elements. *)
Fixpoint join (sep : string) (parts : list string) : string :=
  match parts with
  | [] => ""
  | [p] => p
  | p :: rest => p ++ sep ++ join sep rest
  end.

Fixpoint sequence {A} (rs : list (result A)) : result (list A) :=
  match rs with
  | [] => Ok []
  | r :: rest =>
      (x <- r ;; xs <- sequence rest ;; Ok (x :: xs))%result
  end.

(** [ToString], as a template literal applies it to an interpolated value.
    An array prints its elements joined by commas, [null] and [undefined]
    elements as nothing.  A plain object prints as [[object Object]]; when it
    carries an own [toString] property (a JSON value, hence not callable) the
    conversion finds no usable method and throws. *)
Fixpoint to_string (v : value) : result string :=
  match v with
  | VUndefined => Ok "undefined"
  | VNull => Ok "null"
  | VBool true => Ok "true"
  | VBool false => Ok "false"
  | VNum n => Ok (num_to_string n)
  | VStr s => Ok s
  | VArr items =>
      (parts <- sequence
         (map (fun x => match x with
                        | VUndefined | VNull => Ok ""
                        | _ => to_string x
                        end) items) ;;
       Ok (join "," parts))%result
  | VObj fields =>
      if has_own "toString" fields then Throw TypeError
      else Ok "[object Object]"
  end.

(** [xs.forEach(cb)] where the callback updates one local string variable and
    may throw: [cb acc x] is the new value of the variable. *)
Fixpoint forEach_items {A} (cb : string -> A -> result string)
    (items : list A) (acc : string) : result string :=
  match items with
  | [] => Ok acc
  | x :: rest => (acc' <- cb acc x ;; forEach_items cb rest acc')%result
  end.

(** [v.forEach(cb)] on an arbitrary value: only arrays have the method; on
    [undefined] and [null] the property read throws, on anything else the
    call of a non-function does. *)
Definition forEach (v : value) (cb : string -> value -> result string)
    (acc : string) : result string :=
  match v with
  | VArr items => forEach_items cb items acc
  | _ => Throw TypeError
  end.

(** *** [JSON.stringify] *)

Definition hex_digit (n : nat) : string :=
  String (nth n (list_ascii_of_string "0123456789abcdef") "0"%char) EmptyString.

Definition escape_char (c : ascii) : string :=
  let n := nat_of_ascii c in
  if Nat.eqb n 34 then backslash ++ dquote
  else if Nat.eqb n 92 then backslash ++ backslash
  else if Nat.eqb n 8 then backslash ++ "b"
  else if Nat.eqb n 12 then backslash ++ "f"
  else if Nat.eqb n 10 then backslash ++ "n"
  else if Nat.eqb n 13 then backslash ++ "r"
  else if Nat.eqb n 9 then backslash ++ "t"
  else if Nat.ltb n 32
       then backslash ++ "u00" ++ hex_digit (n / 16) ++ hex_digit (n mod 16)
  else String c EmptyString.

Fixpoint escape (s : string) : string :=
  match s with
  | EmptyString => ""
  | String c rest => escape_char c ++ escape rest
  end.

(** [QuoteJSONString]. *)
Definition quote (s : string) : string := dquote ++ escape s ++ dquote.

Fixpoint spaces (n : nat) : string :=
  match n with
  | O => ""
  | S m => " " ++ spaces m
  end.

(** Brackets around the serialised members: on one line without a gap, one
    member per line with it. [indent] is the indentation of the enclosing
    line, [gap] the number of spaces per level. *)
Definition wrap (opening closing : string) (gap indent : nat)
    (members : list string) : string :=
  match members with
  | [] => opening ++ closing
  | _ =>
      if Nat.eqb gap 0 then opening ++ join "," members ++ closing
      else opening ++ nl ++ spaces (indent + gap)
             ++ join ("," ++ nl ++ spaces (indent + gap)) members
             ++ nl ++ spaces indent ++ closing
  end.

Fixpoint filter_some {A} (xs : list (option A)) : list A :=
  match xs with
  | [] => []
  | Some x :: rest => x :: filter_some rest
  | None :: rest => filter_some rest
  end.

(** [SerializeJSONProperty]: [None] is the [undefined] result.  A number
    that is not finite is written [null]. An [undefined] array element is
    written [null]; an [undefined] object member is left out together with
    its key. *)
Fixpoint serialize (gap indent : nat) (v : value) : option string :=
  match v with
  | VUndefined => None
  | VNull => Some "null"
  | VBool true => Some "true"
  | VBool false => Some "false"
  | VNum n => Some (if num_finite n then num_to_string n else "null")
  | VStr s => Some (quote s)
  | VArr items =>
      Some (wrap "[" "]" gap indent
              (map (fun x => match serialize gap (indent + gap) x with
                             | Some t => t
                             | None => "null"
                             end) items))
  | VObj fields =>
      Some (wrap "{" "}" gap indent
              (filter_some
                 (map (fun kv =>
                         match serialize gap (indent + gap) (snd kv) with
                         | Some t =>
                             Some (quote (fst kv) ++ ":"
                                     ++ (if Nat.eqb gap 0 then "" else " ") ++ t)
                         | None => None
                         end) fields)))
  end.

(** [JSON.stringify(v)] and [JSON.stringify(v, null, gap)]. *)
Definition stringify (gap : nat) (v : value) : option string :=
  serialize gap 0 v.

End JS.

(** ** The diagram transformer *)

Module Erd.
Import JS.
Local Open Scope result_scope.

(** The callback of [table.columns.forEach]. Both arms of the conditional on
    [column.nullable] are the empty string, as in the source. *)
Definition add_column (mermaidCode : string) (column : value) : result string :=
  n <- get_prop column "nullable" ;;
  let nullable := if truthy n then "" else "" in
  ty <- get_prop column "type" ;;
  ty_s <- to_string ty ;;
  nm <- get_prop column "name" ;;
  nm_s <- to_string nm ;;
  Ok (mermaidCode ++ ("        " ++ ty_s ++ " " ++ nm_s ++ nullable ++ nl)).

(** The callback of the first [tables.forEach]: one entity block. *)
Definition add_table (mermaidCode : string) (table : value) : result string :=
  nm <- get_prop table "name" ;;
  nm_s <- to_string nm ;;
  let mermaidCode := mermaidCode ++ ("    " ++ nm_s ++ " {" ++ nl) in
  columns <- get_prop table "columns" ;;
  mermaidCode <- forEach columns add_column mermaidCode ;;
  Ok (mermaidCode ++ ("    }" ++ nl)).

(** The callback of [table.relationships.forEach]. *)
Definition add_relationship (table : value) (mermaidCode : string)
    (relationship : value) : result string :=
  tt <- get_prop relationship "targetTable" ;;
  tt_s <- to_string tt ;;
  nm <- get_prop table "name" ;;
  nm_s <- to_string nm ;;
  Ok (mermaidCode ++ ("    " ++ tt_s ++ " }o--|| " ++ nm_s ++ " : relates" ++ nl)).

(** The callback of the second [tables.forEach]. *)
Definition add_relationships (mermaidCode : string) (table : value)
    : result string :=
  relationships <- get_prop table "relationships" ;;
  if truthy relationships
  then forEach relationships (add_relationship table) mermaidCode
  else Ok mermaidCode.

Definition generateMermaidERD (designData : value) : result string :=
  let mermaidCode := "erDiagram" ++ nl in
  recs <- get_prop designData "designRecommendations" ;;
  tables <- get_prop recs "tables" ;;
  mermaidCode <- forEach tables add_table mermaidCode ;;
  recs <- get_prop designData "designRecommendations" ;;
  tables <- get_prop recs "tables" ;;
  forEach tables add_relationships mermaidCode.

End Erd.

(** ** Well-formed designs, and the transformer as the specification words it *)

Module Design.
Import JS.

Record Column : Type := mkColumn {
  col_name : string;
  col_type : string;
  col_nullable : bool
}.

Record Relationship : Type := mkRelationship {
  targetTable : string
}.

(** [relationships] is optional: [None] is the absent member. *)
Record Table : Type := mkTable {
  tbl_name : string;
  columns : list Column;
  relationships : option (list Relationship)
}.

Record DesignRecommendation : Type := mkDesign {
  tables : list Table
}.

(** The JSON value of a well-formed design. *)
Definition column_value (c : Column) : value :=
  VObj [("name", VStr (col_name c));
        ("type", VStr (col_type c));
        ("nullable", VBool (col_nullable c))].

Definition relationship_value (r : Relationship) : value :=
  VObj [("targetTable", VStr (targetTable r))].

Definition table_value (t : Table) : value :=
  VObj ([("name", VStr (tbl_name t));
         ("columns", VArr (map column_value (columns t)))]
        ++ match relationships t with
           | Some rs => [("relationships", VArr (map relationship_value rs))]
           | None => []
           end).

Definition design_value (d : DesignRecommendation) : value :=
  VObj [("tables", VArr (map table_value (tables d)))].

(** The success body of [POST /api/generate-design]: the design sits under
    [designRecommendations], where [generateMermaidERD] looks for it. *)
Definition response_body (d : DesignRecommendation) : value :=
  VObj [("designRecommendations", design_value d)].

(** The output as section 4.2 of the specification describes it. *)
Definition header_line : string := "erDiagram" ++ nl.

Definition column_line (c : Column) : string :=
  "        " ++ col_type c ++ " " ++ col_name c ++ nl.

Definition entity_block (t : Table) : string :=
  "    " ++ tbl_name t ++ " {" ++ nl
    ++ concat_all (map column_line (columns t))
    ++ "    }" ++ nl.

Definition relationship_line (t : Table) (r : Relationship) : string :=
  "    " ++ targetTable r ++ " }o--|| " ++ tbl_name t ++ " : relates" ++ nl.

Definition relationship_lines (t : Table) : list string :=
  match relationships t with
  | Some rs => map (relationship_line t) rs
  | None => []
  end.

Definition transform_spec (d : DesignRecommendation) : string :=
  header_line
    ++ concat_all (map entity_block (tables d))
    ++ concat_all (flat_map relationship_lines (tables d)).

End Design.

(** ** The workflow controller *)

Module App.
Import JS.

(** *** Component state (the [useState] cells of [DatabaseDesignApp]) *)

(** [token] holds whatever [response.data.token] was, hence a [value].
    [designResult] and [databaseSchema] are [string | null]; [None] also
    stands for the [undefined] that [JSON.stringify] may hand to
    [setDesignResult] (the view only tests them for truthiness). *)
Record State : Type := mkState {
  isLoggedIn : bool;
  token : value;
  error : option string;
  isLoggingIn : bool;
  isGeneratingDesign : bool;
  designResult : option string;
  databaseSchema : option string
}.

Definition initialState : State :=
  mkState false (VStr "") None false false None None.

(** *** The input elements behind the four refs *)

(** [None] is a ref whose [current] is [null] (its element is not mounted);
    [Some v] is a mounted element whose [value] is [v]. *)
Record Refs : Type := mkRefs {
  usernameRef : option string;
  passwordRef : option string;
  sourceTypeRef : option string;
  connectionStringRef : option string
}.

(** After the first render the login form is mounted, empty. *)
Definition initialRefs : Refs := mkRefs (Some "") (Some "") None None.

(** [ref.current?.value || ''] *)
Definition readRef (r : option string) : string :=
  match r with
  | Some v => if String.eqb v "" then "" else v
  | None => ""
  end.

(** [if (ref.current) ref.current.value = ''] *)
Definition clearRef (r : option string) : option string :=
  match r with
  | Some _ => Some ""
  | None => None
  end.

(** *** Handlers as state transformers that may throw *)

(** A state update made before a [throw] stays made, so the state is
    returned in both outcomes. *)
Definition M (A : Type) : Type := State -> State * result A.

Definition ret {A} (a : A) : M A := fun s => (s, Ok a).

Definition bind {A B} (m : M A) (k : A -> M B) : M B :=
  fun s =>
    match m s with
    | (s', Ok a) => k a s'
    | (s', Throw e) => (s', Throw e)
    end.

Definition throw {A} (e : exn) : M A := fun s => (s, Throw e).

Definition lift {A} (r : result A) : M A := fun s => (s, r).

(** [try { body } catch (err) { handler } finally { fin }] *)
Definition try_catch_finally (body handler fin : M unit) : M unit :=
  fun s =>
    match body s with
    | (s1, Ok _) => fin s1
    | (s1, Throw _) =>
        match handler s1 with
        | (s2, Ok _) => fin s2
        | (s2, Throw e) =>
            match fin s2 with
            | (s3, Ok _) => (s3, Throw e)
            | (s3, Throw e') => (s3, Throw e')
            end
        end
    end.

Definition exec {A} (m : M A) (s : State) : State := fst (m s).

Declare Scope handler_scope.
Delimit Scope handler_scope with handler.
Notation "x <- m ;; k" := (bind m (fun x => k))
  (at level 61, m at next level, right associativity) : handler_scope.
Notation "m ;; k" := (bind m (fun _ => k))
  (at level 61, right associativity) : handler_scope.
Local Open Scope handler_scope.

Definition setIsLoggedIn (b : bool) : M unit := fun s =>
  (mkState b (token s) (error s) (isLoggingIn s) (isGeneratingDesign s)
           (designResult s) (databaseSchema s), Ok tt).

Definition setToken (t : value) : M unit := fun s =>
  (mkState (isLoggedIn s) t (error s) (isLoggingIn s) (isGeneratingDesign s)
           (designResult s) (databaseSchema s), Ok tt).

Definition setError (e : option string) : M unit := fun s =>
  (mkState (isLoggedIn s) (token s) e (isLoggingIn s) (isGeneratingDesign s)
           (designResult s) (databaseSchema s), Ok tt).

Definition setIsLoggingIn (b : bool) : M unit := fun s =>
  (mkState (isLoggedIn s) (token s) (error s) b (isGeneratingDesign s)
           (designResult s) (databaseSchema s), Ok tt).

Definition setIsGeneratingDesign (b : bool) : M unit := fun s =>
  (mkState (isLoggedIn s) (token s) (error s) (isLoggingIn s) b
           (designResult s) (databaseSchema s), Ok tt).

Definition setDesignResult (r : option string) : M unit := fun s =>
  (mkState (isLoggedIn s) (token s) (error s) (isLoggingIn s)
           (isGeneratingDesign s) r (databaseSchema s), Ok tt).

Definition setDatabaseSchema (d : option string) : M unit := fun s =>
  (mkState (isLoggedIn s) (token s) (error s) (isLoggingIn s)
           (isGeneratingDesign s) (designResult s) d, Ok tt).

(** *** The network *)

(** A call of [axios.post]: the URL, the data object, and the value of the
    [Authorization] header when one is given. *)
Record Request : Type := mkRequest {
  req_url : string;
  req_data : value;
  req_authorization : option string
}.

(** The request body on the wire: axios sends [JSON.stringify(data)]. *)
Definition serialized_body (r : Request) : option string :=
  stringify 0 (req_data r).

(** How the promise of [axios.post] settles: resolved with a response whose
    [data] is given, or rejected (network failure, status outside 2xx). *)
Inductive Outcome : Type :=
| Resolved (data : value)
| Rejected.

(** [const response = await ...; response.data] *)
Definition await (o : Outcome) : M value :=
  match o with
  | Resolved data => ret data
  | Rejected => throw AxiosError
  end.

Definition login_url : string := "http://localhost:3000/api/login".
Definition generate_url : string := "http://localhost:3000/api/generate-design".

Definition login_failed_message : string :=
  "Login failed. Please check your credentials.".
Definition generate_failed_message : string :=
  "Failed to generate database design.".

(** *** [handleLogin] *)

(** Up to the [await]: the request it issues. ([e.preventDefault()] has no
    effect on the component.) *)
Definition handleLogin_submit (refs : Refs) : M Request :=
  let username := readRef (usernameRef refs) in
  let password := readRef (passwordRef refs) in
  setError None ;;
  setIsLoggingIn true ;;
  ret (mkRequest login_url
         (VObj [("username", VStr username); ("password", VStr password)])
         None).

(** From the [await] on, once the promise has settled. *)
Definition handleLogin_settle (o : Outcome) : M unit :=
  try_catch_finally
    (data <- await o ;;
     tok <- lift (get_prop data "token") ;;
     setToken tok ;;
     setIsLoggedIn true)
    (setError (Some login_failed_message) ;;
     setIsLoggedIn false)
    (setIsLoggingIn false).

(** *** [handleGenerateDesign] *)

(** The first argument of [axios.post]. *)
Definition generate_data (sourceType connectionString : string) : value :=
  VObj [("sourceType", VStr sourceType);
        ("connectionString", VStr connectionString);
        ("sourceConfig",
         VObj [("path", if String.eqb sourceType "csv"
                        then VStr connectionString else VUndefined);
               ("url", if String.eqb sourceType "api"
                       then VStr connectionString else VUndefined)])].

(** Evaluating the arguments of [axios.post]; the template literal of the
    header converts the token and may throw. *)
Definition generate_request (sourceType connectionString : string)
    (tok : value) : result Request :=
  (tok_s <- to_string tok ;;
   Ok (mkRequest generate_url
         (generate_data sourceType connectionString)
         (Some ("Bearer " ++ tok_s))))%result.

Definition generate_catch : M unit :=
  setError (Some generate_failed_message).

Definition generate_finally : M unit :=
  setIsGeneratingDesign false.

(** Up to the [await]. [token] is the one the callback closed over, the
    state's token of the render the click happened in. When the arguments of
    [axios.post] cannot be evaluated nothing is sent and the handler runs to
    its end at once. ([console.log] and [console.error] are left out.) *)
Definition handleGenerateDesign_click (refs : Refs) : M (option Request) :=
  fun s =>
    let sourceType := readRef (sourceTypeRef refs) in
    let connectionString := readRef (connectionStringRef refs) in
    (setError None ;;
     setIsGeneratingDesign true ;;
     match generate_request sourceType connectionString (token s) with
     | Ok req => ret (Some req)
     | Throw e =>
         try_catch_finally (throw e) generate_catch generate_finally ;;
         ret None
     end) s.

(** From the [await] on. *)
Definition handleGenerateDesign_settle (o : Outcome) : M unit :=
  try_catch_finally
    (designData <- await o ;;
     setDesignResult (stringify 2 designData) ;;
     mermaidSchema <- lift (Erd.generateMermaidERD designData) ;;
     setDatabaseSchema (Some mermaidSchema))
    generate_catch
    generate_finally.

(** *** [handleLogout] *)

Definition handleLogout_state : M unit :=
  setIsLoggedIn false ;;
  setToken (VStr "") ;;
  setDesignResult None ;;
  setDatabaseSchema None.

Definition handleLogout_refs (refs : Refs) : Refs :=
  mkRefs (clearRef (usernameRef refs)) (clearRef (passwordRef refs))
         (clearRef (sourceTypeRef refs)) (clearRef (connectionStringRef refs)).

(** The handler as a whole: the component state and the inputs it leaves. *)
Definition handleLogout (s : State) (refs : Refs) : State * Refs :=
  (exec handleLogout_state s, handleLogout_refs refs).

(** *** The asynchronous handlers run without interruption *)

(** [handleLogin] from the submit to its end, when nothing else happens
    before its promise settles as [o]. *)
Definition handleLogin (refs : Refs) (o : Outcome) : M unit :=
  handleLogin_submit refs ;;
  handleLogin_settle o.

(** [handleGenerateDesign] from the click to its end, likewise. *)
Definition handleGenerateDesign (refs : Refs) (o : Outcome) : M unit :=
  sent <- handleGenerateDesign_click refs ;;
  match sent with
  | Some _ => handleGenerateDesign_settle o
  | None => ret tt
  end.

(** *** The view *)

Inductive View : Type :=
| LoginView
| DesignView.

(** [!isLoggedIn ? <LoginForm/> : <DesignInterface/>] *)
Definition view (s : State) : View :=
  if isLoggedIn s then DesignView else LoginView.

(** The message either view shows: [{error && ...}]. *)
Definition visible_error (s : State) : option string :=
  match error s with
  | Some m => if String.eqb m "" then None else Some m
  | None => None
  end.

End App.

(** ** The component together with its environment *)

Module Session.
Import JS App.

(** The component state, the input elements, the requests whose promise has
    not settled yet, and the log of all requests issued so far. *)
Record World : Type := mkWorld {
  st : State;
  dom : Refs;
  pendingLogin : nat;
  pendingGenerate : nat;
  sent : list Request
}.

Definition initialWorld : World :=
  mkWorld initialState initialRefs 0 0 [].

Inductive Event : Type :=
| UserInput (refs : Refs)      (* the elements behind the refs change: typing,
                                  mounting, unmounting *)
| SubmitLogin                  (* [onSubmit] of the login form *)
| LoginSettles (o : Outcome)   (* the promise of the login request settles *)
| ClickGenerate                (* [onClick] of the generate button *)
| GenerateSettles (o : Outcome)
| ClickLogout.                 (* [onClick] of the logout button *)

(** What each event does, by the handlers alone. A promise can only settle
    when a request of its kind is pending. *)
Definition handle (w : World) (e : Event) : option World :=
  match e with
  | UserInput refs =>
      Some (mkWorld (st w) refs (pendingLogin w) (pendingGenerate w) (sent w))
  | SubmitLogin =>
      match handleLogin_submit (dom w) (st w) with
      | (s, Ok req) =>
          Some (mkWorld s (dom w) (S (pendingLogin w)) (pendingGenerate w)
                        (sent w ++ [req]))
      | (s, Throw _) =>
          Some (mkWorld s (dom w) (pendingLogin w) (pendingGenerate w) (sent w))
      end
  | LoginSettles o =>
      match pendingLogin w with
      | O => None
      | S n =>
          Some (mkWorld (exec (handleLogin_settle o) (st w)) (dom w)
                        n (pendingGenerate w) (sent w))
      end
  | ClickGenerate =>
      match handleGenerateDesign_click (dom w) (st w) with
      | (s, Ok (Some req)) =>
          Some (mkWorld s (dom w) (pendingLogin w) (S (pendingGenerate w))
                        (sent w ++ [req]))
      | (s, _) =>
          Some (mkWorld s (dom w) (pendingLogin w) (pendingGenerate w) (sent w))
      end
  | GenerateSettles o =>
      match pendingGenerate w with
      | O => None
      | S n =>
          Some (mkWorld (exec (handleGenerateDesign_settle o) (st w)) (dom w)
                        (pendingLogin w) n (sent w))
      end
  | ClickLogout =>
      let (s, refs) := handleLogout (st w) (dom w) in
      Some (mkWorld s refs (pendingLogin w) (pendingGenerate w) (sent w))
  end.

(** Which events the rendered view lets through. The login form exists in
    the login view only, its fields are [required] and it is [disabled]
    while [isLoggingIn]; the two buttons exist in the design view only and
    are [disabled] while [isGeneratingDesign]. (Enter and exit animations
    of the views are not modelled.) *)
Definition enabled (w : World) (e : Event) : bool :=
  match e with
  | UserInput _ => true
  | SubmitLogin =>
      negb (isLoggedIn (st w)) && negb (isLoggingIn (st w))
      && negb (String.eqb (readRef (usernameRef (dom w))) "")
      && negb (String.eqb (readRef (passwordRef (dom w))) "")
  | LoginSettles _ => true
  | ClickGenerate => isLoggedIn (st w) && negb (isGeneratingDesign (st w))
  | GenerateSettles _ => true
  | ClickLogout => isLoggedIn (st w) && negb (isGeneratingDesign (st w))
  end.

(** One step of the component as the user can drive it. *)
Definition ui_step (w : World) (e : Event) : option World :=
  if enabled w e then handle w e else None.

Fixpoint run (step : World -> Event -> option World) (w : World)
    (es : list Event) : option World :=
  match es with
  | [] => Some w
  | e :: rest =>
      match step w e with
      | Some w' => run step w' rest
      | None => None
      end
  end.

(** Whether a settled login promise takes the success path of [handleLogin]:
    the promise resolved and [response.data.token] could be read. *)
Definition login_succeeds (o : Outcome) : bool :=
  match o with
  | Resolved data =>
      match get_prop data "token" with
      | Ok _ => true
      | Throw _ => false
      end
  | Rejected => false
  end.

(** Whether, after the events [es], the last thing that touched the session
    was a successful login: no logout and no failed login came after it. *)
Fixpoint authenticated_after (before : bool) (es : list Event) : bool :=
  match es with
  | [] => before
  | LoginSettles o :: rest => authenticated_after (login_succeeds o) rest
  | ClickLogout :: rest => authenticated_after false rest
  | _ :: rest => authenticated_after before rest
  end.

(** Requests in flight agree with the two loading flags, and each kind of
    request is in flight only in the view that can start it. *)
Definition consistent (w : World) : Prop :=
  pendingLogin w = (if isLoggingIn (st w) then 1 else 0)
  /\ pendingGenerate w = (if isGeneratingDesign (st w) then 1 else 0)
  /\ (isLoggingIn (st w) = true -> isLoggedIn (st w) = false)
  /\ (isGeneratingDesign (st w) = true -> isLoggedIn (st w) = true)
  /\ (isLoggedIn (st w) = false -> token (st w) = VStr "").

End Session.

(** ** Concrete inputs used in the examples *)

Module Scenario.
Import JS App Session Design.

(** A login body carrying the token [t]. *)
Definition token_body : value := VObj [("token", VStr "t")].

(** The login form filled in. *)
Definition credentials : Refs := mkRefs (Some "u") (Some "p") None None.

(** The user logs in through the form. *)
Definition login_run : list Event :=
  [UserInput credentials; SubmitLogin; LoginSettles (Resolved token_body)].

(** The two designs of the specification's examples. *)
Definition users_design : DesignRecommendation :=
  mkDesign [mkTable "Users" [mkColumn "id" "int" false] (Some [])].

Definition orders_design : DesignRecommendation :=
  mkDesign [mkTable "Orders" [mkColumn "user_id" "int" true]
                    (Some [mkRelationship "Users"])].

(** A 2xx body without [designRecommendations]. *)
Definition malformed_body : value := VObj [].

(** Log in, generate a design successfully, then generate again and receive
    the malformed body. *)
Definition first_generation_run : list Event :=
  login_run
    ++ [ClickGenerate; GenerateSettles (Resolved (response_body users_design))].

Definition malformed_generation_run : list Event :=
  first_generation_run
    ++ [ClickGenerate; GenerateSettles (Resolved malformed_body)].

(** Log in, have a generation rejected, then log out. *)
Definition failed_generation_then_logout : list Event :=
  login_run ++ [ClickGenerate; GenerateSettles Rejected; ClickLogout].

(** The state a run leaves, when every event of it was possible. *)
Definition state_after (step : World -> Event -> option World)
    (es : list Event) : option State :=
  option_map st (run step initialWorld es).

End Scenario.

(** ** What the two views render *)

Module Render.
Import JS App.

(** A [string | null] used as a JSX condition ([{x && ...}]): [null] and the
    empty string render nothing. *)
Definition shown (x : option string) : option string :=
  match x with
  | Some t => if String.eqb t "" then None else Some t
  | None => None
  end.

(** [LoginForm]: the message above the fields, whether the two fields and
    the button are disabled, and whether the button shows the spinner
    instead of its label. *)
Record LoginFormView : Type := mkLoginFormView {
  login_error : option string;
  login_disabled : bool;
  login_spinner : bool
}.

(** [DesignInterface]: whether the select, the input and both buttons are
    disabled, the message, whether the spinner row is there, whether the
    result panel is there, and the chart handed to [Mermaid] inside it. *)
Record DesignInterfaceView : Type := mkDesignInterfaceView {
  design_disabled : bool;
  design_error : option string;
  design_spinner : bool;
  design_panel : bool;
  design_chart : option string
}.

Inductive Screen : Type :=
| LoginForm (v : LoginFormView)
| DesignInterface (v : DesignInterfaceView).

(** [{designResult && !isGeneratingDesign && ( ... )}] *)
Definition panel_visible (s : State) : bool :=
  match shown (designResult s) with
  | Some _ => negb (isGeneratingDesign s)
  | None => false
  end.

(** The return value of [DatabaseDesignApp]. *)
Definition render (s : State) : Screen :=
  if negb (isLoggedIn s)
  then LoginForm
         (mkLoginFormView (shown (error s)) (isLoggingIn s) (isLoggingIn s))
  else DesignInterface
         (mkDesignInterfaceView
            (isGeneratingDesign s)
            (shown (error s))
            (isGeneratingDesign s)
            (panel_visible s)
            (if panel_visible s then shown (databaseSchema s) else None)).

(** The chart on the screen, if any. *)
Definition chart_on_screen (s : State) : option string :=
  match render s with
  | LoginForm _ => None
  | DesignInterface v => design_chart v
  end.

(** The message on the screen, if any. *)
Definition message_on_screen (s : State) : option string :=
  match render s with
  | LoginForm v => login_error v
  | DesignInterface v => design_error v
  end.

End Render.

(** ** Histories of events *)

Module History.
Import JS App Session.

(** The token the last session event left: the one of the latest successful
    login body, the empty string after a logout. A failed login writes
    none. *)
Fixpoint token_after (before : value) (es : list Event) : value :=
  match es with
  | [] => before
  | LoginSettles (Resolved data) :: rest =>
      match get_prop data "token" with
      | Ok tok => token_after tok rest
      | Throw _ => token_after before rest
      end
  | ClickLogout :: rest => token_after (VStr "") rest
  | _ :: rest => token_after before rest
  end.

(** The two events that start a request. *)
Definition is_submission (e : Event) : bool :=
  match e with
  | SubmitLogin | ClickGenerate => true
  | _ => false
  end.

(** The bodies that generation requests resolved with, latest first. *)
Fixpoint received_bodies (es : list Event) (acc : list value) : list value :=
  match es with
  | [] => acc
  | GenerateSettles (Resolved data) :: rest => received_bodies rest (data :: acc)
  | _ :: rest => received_bodies rest acc
  end.

(** The two shapes of request the component issues. *)
Definition login_request (r : Request) : Prop :=
  req_url r = login_url
  /\ req_authorization r = None
  /\ exists username password,
       req_data r = VObj [("username", VStr username);
                          ("password", VStr password)].

Definition generate_request_shape (r : Request) : Prop :=
  req_url r = generate_url
  /\ (exists t, req_authorization r = Some ("Bearer " ++ t))
  /\ exists sourceType connectionString,
       req_data r = generate_data sourceType connectionString.

(** A login request with both credentials filled in. *)
Definition filled_login_request (r : Request) : Prop :=
  req_url r = login_url ->
  exists username password,
    req_data r = VObj [("username", VStr username); ("password", VStr password)]
    /\ username <> "" /\ password <> "".

(** While logged out the component holds no token and no design. *)
Definition logged_out_clean (s : State) : Prop :=
  isLoggedIn s = false ->
  token s = VStr "" /\ designResult s = None /\ databaseSchema s = None.

End History.

(** ** Response bodies that carry a design *)

Module Shape.
Import JS Design.

(** [`${v.k}`]: read a member and convert it. *)
Definition read_text (v : value) (k : string) : result string :=
  (x <- get_prop v k ;; to_string x)%result.

(** A value carries a row of the design when the members the transformer
    reads give the row's texts. Other members, and the order of members, do
    not matter. *)
Definition represents_column (v : value) (c : Column) : Prop :=
  read_text v "type" = Ok (col_type c)
  /\ read_text v "name" = Ok (col_name c).

Definition represents_relationship (v : value) (r : Relationship) : Prop :=
  read_text v "targetTable" = Ok (targetTable r).

(** An absent [relationships] is any falsy member: missing, [null], [false],
    [0] or the empty string. *)
Definition represents_table (v : value) (t : Table) : Prop :=
  read_text v "name" = Ok (tbl_name t)
  /\ (exists cvs,
        get_prop v "columns" = Ok (VArr cvs)
        /\ Forall2 represents_column cvs (columns t))
  /\ match relationships t with
     | Some rs =>
         exists rvs,
           get_prop v "relationships" = Ok (VArr rvs)
           /\ Forall2 represents_relationship rvs rs
     | None =>
         exists x, get_prop v "relationships" = Ok x /\ truthy x = false
     end.

Definition represents_design (v : value) (d : DesignRecommendation) : Prop :=
  exists recs tvs,
    get_prop v "designRecommendations" = Ok recs
    /\ get_prop recs "tables" = Ok (VArr tvs)
    /\ Forall2 represents_table tvs (tables d).

(** What a table value must look like for the transformer to get past it. *)
Definition table_shape (t : value) : Prop :=
  (exists cvs, get_prop t "columns" = Ok (VArr cvs))
  /\ exists x,
       get_prop t "relationships" = Ok x
       /\ (truthy x = false \/ exists rvs, x = VArr rvs).

End Shape.

(** ** More concrete inputs *)

Module Samples.
Import JS App Session Design Scenario.

(** A body that carries the design below with members in another order,
    members the transformer does not read, and [relationships: null]. *)
Definition annotated_body : value :=
  VObj [("requestId", VNum (mkNumber "7" false true));
        ("designRecommendations",
         VObj [("tables",
                VArr [VObj [("columns",
                             VArr [VObj [("type", VStr "int");
                                         ("primaryKey", VBool true);
                                         ("name", VStr "id")]]);
                            ("relationships", VNull);
                            ("name", VStr "Users")]])])].

Definition annotated_design : DesignRecommendation :=
  mkDesign [mkTable "Users" [mkColumn "id" "int" false] None].

(** The world a run leaves; the initial one when the run is not possible. *)
Definition world_after (step : World -> Event -> option World)
    (es : list Event) : World :=
  match run step initialWorld es with
  | Some w => w
  | None => initialWorld
  end.

(** A body whose table name is the number 1e21, which prints as [1e+21]. *)
Definition exponent_body : value :=
  VObj [("designRecommendations",
         VObj [("tables",
                VArr [VObj [("name", VNum (mkNumber "1e+21" false true));
                            ("columns", VArr [])]])])].

Definition exponent_design : DesignRecommendation :=
  mkDesign [mkTable "1e+21" [] None].

(** The design form filled in for a CSV source. *)
Definition csv_inputs : Refs :=
  mkRefs None None (Some "csv") (Some "/data/x.csv").

End Samples.

(** ** Invariants used in the proofs *)

Module Invariants.
Import JS App Session History.

(** A callback extends the text when all it does is append. *)
Definition extends {A} (cb : string -> A -> result string) : Prop :=
  forall acc x acc', cb acc x = Ok acc' -> exists suffix, acc' = acc ++ suffix.

(** While either operation is loading no message is set. *)
Definition quiet_while_loading (s : State) : Prop :=
  (isLoggingIn s = true -> error s = None)
  /\ (isGeneratingDesign s = true -> error s = None).

(** Everything runs through the controls keep. *)
Definition settled (w : World) : Prop :=
  consistent w /\ logged_out_clean (st w) /\ quiet_while_loading (st w).

(** Both stored results stem from bodies that were received. *)
Definition stems_from (bodies : list value) (s : State) : Prop :=
  (forall schema,
     databaseSchema s = Some schema ->
     exists data, In data bodies /\ Erd.generateMermaidERD data = Ok schema)
  /\ (forall text,
        designResult s = Some text ->
        exists data, In data bodies /\ stringify 2 data = Some text).

End Invariants.

(** * Facts about strings *)

Lemma append_nil_r (s : string) : s ++ "" = s.
Proof. induction s as [|c s IH]; simpl; [reflexivity | now rewrite IH]. Qed.

Lemma append_assoc (a b c : string) : (a ++ b) ++ c = a ++ (b ++ c).
Proof. induction a as [|x a IH]; simpl; [reflexivity | now rewrite IH]. Qed.

Lemma concat_all_app (xs ys : list string) :
  concat_all (xs ++ ys) = concat_all xs ++ concat_all ys.
Proof.
  induction xs as [|x xs IH]; simpl; [reflexivity|].
  now rewrite IH, append_assoc.
Qed.

(** Bring both sides of an equation between concatenations to the same
    right-nested form. *)
Ltac normalize_append :=
  repeat (progress (rewrite ?append_assoc; cbn [String.append])).

(** * The diagram transformer: results *)

Section Transformer.
Import JS Erd Design.

(** The three callbacks on the values of well-formed rows. *)

Lemma add_column_value (acc : string) (c : Column) :
  add_column acc (column_value c) = Ok (acc ++ column_line c).
Proof.
  destruct c as [nm ty nullable].
  unfold add_column, column_value, column_line; cbn.
  destruct nullable; reflexivity.
Qed.

Lemma forEach_columns (cs : list Column) : forall acc,
  forEach_items add_column (map column_value cs) acc
  = Ok (acc ++ concat_all (map column_line cs)).
Proof.
  induction cs as [|c cs IH]; intros acc; cbn [map forEach_items concat_all].
  - now rewrite append_nil_r.
  - rewrite add_column_value; cbn [rbind].
    now rewrite IH, append_assoc.
Qed.

Lemma table_value_name (t : Table) :
  get_prop (table_value t) "name" = Ok (VStr (tbl_name t)).
Proof. reflexivity. Qed.

Lemma table_value_columns (t : Table) :
  get_prop (table_value t) "columns" = Ok (VArr (map column_value (columns t))).
Proof. reflexivity. Qed.

Lemma table_value_relationships (t : Table) :
  get_prop (table_value t) "relationships"
  = Ok match relationships t with
       | Some rs => VArr (map relationship_value rs)
       | None => VUndefined
       end.
Proof. unfold table_value. destruct (relationships t); reflexivity. Qed.

Lemma add_table_value (acc : string) (t : Table) :
  add_table acc (table_value t) = Ok (acc ++ entity_block t).
Proof.
  unfold add_table.
  rewrite table_value_name; cbn [rbind to_string].
  rewrite table_value_columns; cbn [rbind forEach].
  rewrite forEach_columns; cbn [rbind].
  unfold entity_block.
  now rewrite !append_assoc.
Qed.

Lemma forEach_tables (ts : list Table) : forall acc,
  forEach_items add_table (map table_value ts) acc
  = Ok (acc ++ concat_all (map entity_block ts)).
Proof.
  induction ts as [|t ts IH]; intros acc; cbn [map forEach_items concat_all].
  - now rewrite append_nil_r.
  - rewrite add_table_value; cbn [rbind].
    now rewrite IH, append_assoc.
Qed.

Lemma add_relationship_value (t : Table) (acc : string) (r : Relationship) :
  add_relationship (table_value t) acc (relationship_value r)
  = Ok (acc ++ relationship_line t r).
Proof.
  unfold add_relationship.
  rewrite table_value_name. reflexivity.
Qed.

Lemma forEach_relationships (t : Table) (rs : list Relationship) : forall acc,
  forEach_items (add_relationship (table_value t)) (map relationship_value rs) acc
  = Ok (acc ++ concat_all (map (relationship_line t) rs)).
Proof.
  induction rs as [|r rs IH]; intros acc; cbn [map forEach_items concat_all].
  - now rewrite append_nil_r.
  - rewrite add_relationship_value; cbn [rbind].
    now rewrite IH, append_assoc.
Qed.

Lemma add_relationships_value (acc : string) (t : Table) :
  add_relationships acc (table_value t)
  = Ok (acc ++ concat_all (relationship_lines t)).
Proof.
  unfold add_relationships, relationship_lines.
  rewrite table_value_relationships; cbn [rbind].
  destruct (relationships t) as [rs|]; cbn [truthy forEach concat_all].
  - apply forEach_relationships.
  - now rewrite append_nil_r.
Qed.

Lemma forEach_tables_relationships (ts : list Table) : forall acc,
  forEach_items add_relationships (map table_value ts) acc
  = Ok (acc ++ concat_all (flat_map relationship_lines ts)).
Proof.
  induction ts as [|t ts IH]; intros acc;
    cbn [map forEach_items flat_map concat_all].
  - now rewrite append_nil_r.
  - rewrite add_relationships_value; cbn [rbind].
    now rewrite IH, concat_all_app, append_assoc.
Qed.

(** On the response body of any well-formed design the transformer returns,
    without throwing, the text the specification describes. *)
Lemma generateMermaidERD_transform (d : DesignRecommendation) :
  generateMermaidERD (response_body d) = Ok (transform_spec d).
Proof.
  unfold generateMermaidERD, response_body, design_value.
  cbn [get_prop lookup String.eqb Ascii.eqb Bool.eqb rbind forEach].
  rewrite forEach_tables; cbn [rbind].
  rewrite forEach_tables_relationships.
  unfold transform_spec, header_line.
  now rewrite !append_assoc.
Qed.

End Transformer.

(** * The workflow controller: what each handler does to the state *)

Section Handlers.
Import JS App.

Lemma handleLogin_submit_run (refs : Refs) (s : State) :
  handleLogin_submit refs s
  = (mkState (isLoggedIn s) (token s) None true (isGeneratingDesign s)
             (designResult s) (databaseSchema s),
     Ok (mkRequest login_url
           (VObj [("username", VStr (readRef (usernameRef refs)));
                  ("password", VStr (readRef (passwordRef refs)))])
           None)).
Proof. reflexivity. Qed.

(** Success path of [handleLogin]: the token of the body is stored as it is
    and the flag is raised. *)
Lemma handleLogin_settle_resolved (data tok : value) (s : State) :
  get_prop data "token" = Ok tok ->
  exec (handleLogin_settle (Resolved data)) s
  = mkState true tok (error s) false (isGeneratingDesign s)
            (designResult s) (databaseSchema s).
Proof.
  intros H. unfold exec, handleLogin_settle, try_catch_finally, bind, await, ret, lift.
  rewrite H. reflexivity.
Qed.

(** Failure path of [handleLogin]: the promise was rejected. *)
Lemma handleLogin_settle_rejected (s : State) :
  exec (handleLogin_settle Rejected) s
  = mkState false (token s) (Some login_failed_message) false
            (isGeneratingDesign s) (designResult s) (databaseSchema s).
Proof. reflexivity. Qed.

(** Failure path of [handleLogin]: the body has no readable [token]. *)
Lemma handleLogin_settle_unreadable (data : value) (e : exn) (s : State) :
  get_prop data "token" = Throw e ->
  exec (handleLogin_settle (Resolved data)) s
  = mkState false (token s) (Some login_failed_message) false
            (isGeneratingDesign s) (designResult s) (databaseSchema s).
Proof.
  intros H. unfold exec, handleLogin_settle, try_catch_finally, bind, await, ret, lift.
  rewrite H. reflexivity.
Qed.

(** [handleGenerateDesign] up to the [await], when the header can be built:
    the request goes out, whatever [isLoggedIn] is. *)
Lemma handleGenerateDesign_click_sends (refs : Refs) (s : State) (t : string) :
  to_string (token s) = Ok t ->
  handleGenerateDesign_click refs s
  = (mkState (isLoggedIn s) (token s) None (isLoggingIn s) true
             (designResult s) (databaseSchema s),
     Ok (Some (mkRequest generate_url
                 (generate_data (readRef (sourceTypeRef refs))
                                (readRef (connectionStringRef refs)))
                 (Some ("Bearer " ++ t))))).
Proof.
  intros H. unfold handleGenerateDesign_click, generate_request, bind.
  cbn [setError setIsGeneratingDesign token]. rewrite H. reflexivity.
Qed.

(** ... and when the token cannot be converted: nothing is sent. *)
Lemma handleGenerateDesign_click_throws (refs : Refs) (s : State) (e : exn) :
  to_string (token s) = Throw e ->
  handleGenerateDesign_click refs s
  = (mkState (isLoggedIn s) (token s) (Some generate_failed_message)
             (isLoggingIn s) false (designResult s) (databaseSchema s),
     Ok None).
Proof.
  intros H. unfold handleGenerateDesign_click, generate_request, bind.
  cbn [setError setIsGeneratingDesign token]. rewrite H. reflexivity.
Qed.

(** [handleGenerateDesign] after a rejected promise: only the error and the
    loading flag change. *)
Lemma handleGenerateDesign_settle_rejected (s : State) :
  exec (handleGenerateDesign_settle Rejected) s
  = mkState (isLoggedIn s) (token s) (Some generate_failed_message)
            (isLoggingIn s) false (designResult s) (databaseSchema s).
Proof. reflexivity. Qed.

(** ... after a body the transformer accepts. *)
Lemma handleGenerateDesign_settle_success (data : value) (schema : string)
    (s : State) :
  Erd.generateMermaidERD data = Ok schema ->
  exec (handleGenerateDesign_settle (Resolved data)) s
  = mkState (isLoggedIn s) (token s) (error s) (isLoggingIn s) false
            (stringify 2 data) (Some schema).
Proof.
  intros H.
  unfold exec, handleGenerateDesign_settle, try_catch_finally, bind, await, ret, lift.
  cbn [setDesignResult]. rewrite H. reflexivity.
Qed.

(** ... after a body on which the transformer throws: [setDesignResult] has
    already run. *)
Lemma handleGenerateDesign_settle_fault (data : value) (e : exn) (s : State) :
  Erd.generateMermaidERD data = Throw e ->
  exec (handleGenerateDesign_settle (Resolved data)) s
  = mkState (isLoggedIn s) (token s) (Some generate_failed_message)
            (isLoggingIn s) false (stringify 2 data) (databaseSchema s).
Proof.
  intros H.
  unfold exec, handleGenerateDesign_settle, try_catch_finally, bind, await, ret, lift.
  cbn [setDesignResult]. rewrite H. reflexivity.
Qed.

Lemma handleLogout_state_run (s : State) :
  exec handleLogout_state s
  = mkState false (VStr "") (error s) (isLoggingIn s) (isGeneratingDesign s)
            None None.
Proof. reflexivity. Qed.

Lemma readRef_clearRef (r : option string) : readRef (clearRef r) = "".
Proof. destruct r; reflexivity. Qed.

Lemma clearRef_idempotent (r : option string) :
  clearRef (clearRef r) = clearRef r.
Proof. destruct r; reflexivity. Qed.

(** What logout does reset: the session, both results and the value of
    every mounted input, without a request, and a second logout changes
    nothing more. *)
Lemma handleLogout_resets (s : State) (refs : Refs) :
  let s' := exec handleLogout_state s in
  let refs' := handleLogout_refs refs in
  isLoggedIn s' = false /\ token s' = VStr ""
  /\ designResult s' = None /\ databaseSchema s' = None
  /\ readRef (usernameRef refs') = "" /\ readRef (passwordRef refs') = ""
  /\ readRef (sourceTypeRef refs') = ""
  /\ readRef (connectionStringRef refs') = ""
  /\ exec handleLogout_state s' = s'
  /\ handleLogout_refs refs' = refs'.
Proof.
  cbn zeta. rewrite !handleLogout_state_run. unfold handleLogout_refs.
  cbn [usernameRef passwordRef sourceTypeRef connectionStringRef
       isLoggedIn token designResult databaseSchema error isLoggingIn
       isGeneratingDesign].
  rewrite !readRef_clearRef, !clearRef_idempotent.
  repeat split.
Qed.

(** What logout does not touch: the error slot and the two loading flags. *)
Lemma handleLogout_keeps (s : State) :
  let s' := exec handleLogout_state s in
  error s' = error s /\ isLoggingIn s' = isLoggingIn s
  /\ isGeneratingDesign s' = isGeneratingDesign s.
Proof. repeat split. Qed.

(** No exception leaves a handler: whatever the promise settles to, the
    part after the [await] ends normally. *)
Lemma handlers_catch_everything (o : Outcome) (s : State) :
  snd (handleLogin_settle o s) = Ok tt
  /\ snd (handleGenerateDesign_settle o s) = Ok tt.
Proof.
  split.
  - destruct o as [data|]; [|reflexivity].
    unfold handleLogin_settle, try_catch_finally, bind, await, ret, lift.
    destruct (get_prop data "token"); reflexivity.
  - destruct o as [data|]; [|reflexivity].
    unfold handleGenerateDesign_settle, try_catch_finally, bind, await, ret, lift.
    cbn [setDesignResult].
    destruct (Erd.generateMermaidERD data); reflexivity.
Qed.

End Handlers.

(** * The workflow controller: runs *)

Section Runs.
Import JS App Session.

Lemma run_app (step : World -> Event -> option World) (es1 es2 : list Event) :
  forall w,
    run step w (es1 ++ es2)
    = match run step w es1 with
      | Some w1 => run step w1 es2
      | None => None
      end.
Proof.
  induction es1 as [|e es1 IH]; intros w; cbn [app run]; [reflexivity|].
  destruct (step w e) as [w'|]; [apply IH | reflexivity].
Qed.

Lemma ui_step_handle (w w' : World) (e : Event) :
  ui_step w e = Some w' -> handle w e = Some w'.
Proof. unfold ui_step. destruct (enabled w e); [tauto | discriminate]. Qed.

Lemma run_ui_handle (es : list Event) : forall w w',
  run ui_step w es = Some w' -> run handle w es = Some w'.
Proof.
  induction es as [|e es IH]; intros w w'; cbn [run]; [tauto|].
  destruct (ui_step w e) as [w1|] eqn:E; [|discriminate].
  rewrite (ui_step_handle _ _ _ E). apply IH.
Qed.

(** The state after a settled login, by the path taken. *)
Lemma handleLogin_settle_cases (o : Outcome) (s : State) :
  (login_succeeds o = true
   /\ exists tok, exec (handleLogin_settle o) s
        = mkState true tok (error s) false (isGeneratingDesign s)
                  (designResult s) (databaseSchema s))
  \/ (login_succeeds o = false
      /\ exec (handleLogin_settle o) s
         = mkState false (token s) (Some login_failed_message) false
                   (isGeneratingDesign s) (designResult s) (databaseSchema s)).
Proof.
  destruct o as [data|]; cbn [login_succeeds].
  - destruct (get_prop data "token") as [tok|e] eqn:E.
    + left. split; [reflexivity|]. exists tok.
      now apply handleLogin_settle_resolved.
    + right. split; [reflexivity|].
      now apply handleLogin_settle_unreadable with (e := e).
  - right. split; [reflexivity | apply handleLogin_settle_rejected].
Qed.

(** The state after a click on the generate button, by the path taken. *)
Lemma handleGenerateDesign_click_cases (refs : Refs) (s : State) :
  (exists req, handleGenerateDesign_click refs s
     = (mkState (isLoggedIn s) (token s) None (isLoggingIn s) true
                (designResult s) (databaseSchema s), Ok (Some req)))
  \/ handleGenerateDesign_click refs s
     = (mkState (isLoggedIn s) (token s) (Some generate_failed_message)
                (isLoggingIn s) false (designResult s) (databaseSchema s),
        Ok None).
Proof.
  destruct (to_string (token s)) as [t|e] eqn:E.
  - left. eexists. exact (handleGenerateDesign_click_sends refs s t E).
  - right. exact (handleGenerateDesign_click_throws refs s e E).
Qed.

(** A settled generation changes neither the session nor the login flag and
    lowers its own flag. *)
Lemma handleGenerateDesign_settle_flags (o : Outcome) (s : State) :
  let s' := exec (handleGenerateDesign_settle o) s in
  isLoggedIn s' = isLoggedIn s /\ token s' = token s
  /\ isLoggingIn s' = isLoggingIn s /\ isGeneratingDesign s' = false.
Proof.
  destruct o as [data|].
  - destruct (Erd.generateMermaidERD data) as [schema|e] eqn:E; cbn zeta.
    + rewrite (handleGenerateDesign_settle_success _ _ _ E). repeat split.
    + rewrite (handleGenerateDesign_settle_fault _ _ _ E). repeat split.
  - repeat split.
Qed.

(** [isLoggedIn] is decided by the session events alone. *)
Lemma handle_authenticated (w w' : World) (e : Event) :
  handle w e = Some w' ->
  isLoggedIn (st w') = authenticated_after (isLoggedIn (st w)) [e].
Proof.
  destruct e as [refs| |o| |o|]; cbn [handle authenticated_after].
  - intros [= <-]. reflexivity.
  - rewrite handleLogin_submit_run. intros [= <-]. reflexivity.
  - destruct (pendingLogin w); [discriminate|]. intros [= <-]. cbn [st].
    destruct (handleLogin_settle_cases o (st w)) as [[-> [tok ->]]|[-> ->]];
      reflexivity.
  - destruct (handleGenerateDesign_click_cases (dom w) (st w)) as [[req ->]| ->];
      intros [= <-]; reflexivity.
  - destruct (pendingGenerate w); [discriminate|]. intros [= <-]. cbn [st].
    apply (handleGenerateDesign_settle_flags o (st w)).
  - intros [= <-]. reflexivity.
Qed.

Lemma authenticated_after_cons (b : bool) (e : Event) (es : list Event) :
  authenticated_after b (e :: es)
  = authenticated_after (authenticated_after b [e]) es.
Proof. destruct e; reflexivity. Qed.

Lemma run_handle_authenticated (es : list Event) : forall w w',
  run handle w es = Some w' ->
  isLoggedIn (st w') = authenticated_after (isLoggedIn (st w)) es.
Proof.
  induction es as [|e es IH]; intros w w'; cbn [run].
  - intros [= <-]. reflexivity.
  - destruct (handle w e) as [w1|] eqn:E; [|discriminate].
    intros H. rewrite authenticated_after_cons.
    rewrite <- (handle_authenticated _ _ _ E). now apply IH.
Qed.

(** Every step the view lets through keeps requests and flags in line. *)
Lemma ui_step_consistent (w w' : World) (e : Event) :
  consistent w -> ui_step w e = Some w' -> consistent w'.
Proof.
  unfold consistent, ui_step.
  intros (HL & HG & HLv & HGv & HT).
  destruct e as [refs| |o| |o|]; cbn [enabled handle].
  - intros [= <-]. cbn [st pendingLogin pendingGenerate]. tauto.
  - destruct (isLoggedIn (st w)) eqn:EL; cbn [negb andb]; [discriminate|].
    destruct (isLoggingIn (st w)) eqn:ELi; cbn [negb andb]; [discriminate|].
    destruct (_ && _); [|discriminate].
    rewrite handleLogin_submit_run. intros [= <-].
    cbn [st pendingLogin pendingGenerate isLoggedIn isLoggingIn
         isGeneratingDesign token].
    rewrite HL. intuition congruence.
  - destruct (pendingLogin w) as [|n] eqn:EP; [discriminate|]. intros [= <-].
    destruct (isLoggingIn (st w)) eqn:ELi; [|discriminate].
    injection HL as ->. specialize (HLv eq_refl).
    assert (EG : isGeneratingDesign (st w) = false).
    { destruct (isGeneratingDesign (st w)); [|reflexivity].
      rewrite HGv in HLv by reflexivity. discriminate. }
    cbn [st pendingLogin pendingGenerate].
    destruct (handleLogin_settle_cases o (st w)) as [[_ [tok ->]]|[_ ->]];
      cbn [isLoggedIn isLoggingIn isGeneratingDesign token];
      rewrite HG, EG; intuition congruence.
  - destruct (isLoggedIn (st w)) eqn:EL; cbn [andb]; [|discriminate].
    destruct (isGeneratingDesign (st w)) eqn:EG; cbn [negb]; [discriminate|].
    destruct (handleGenerateDesign_click_cases (dom w) (st w)) as [[req ->]| ->];
      intros [= <-];
      cbn [st pendingLogin pendingGenerate isLoggedIn isLoggingIn
           isGeneratingDesign token];
      rewrite HG; intuition congruence.
  - destruct (pendingGenerate w) as [|n] eqn:EP; [discriminate|]. intros [= <-].
    destruct (isGeneratingDesign (st w)) eqn:EG; [|discriminate].
    injection HG as ->.
    cbn [st pendingLogin pendingGenerate].
    destruct (handleGenerateDesign_settle_flags o (st w)) as (-> & -> & -> & ->).
    intuition congruence.
  - destruct (isLoggedIn (st w)) eqn:EL; cbn [andb]; [|discriminate].
    destruct (isGeneratingDesign (st w)) eqn:EG; cbn [negb]; [discriminate|].
    intros [= <-]. cbn [st pendingLogin pendingGenerate].
    rewrite handleLogout_state_run.
    cbn [isLoggedIn isLoggingIn isGeneratingDesign token].
    rewrite EG. intuition congruence.
Qed.

Lemma initialWorld_consistent : consistent initialWorld.
Proof. unfold consistent; cbn. repeat split; auto; discriminate. Qed.

Lemma run_ui_consistent (es : list Event) : forall w w',
  consistent w -> run ui_step w es = Some w' -> consistent w'.
Proof.
  induction es as [|e es IH]; intros w w' Hc; cbn [run].
  - now intros [= <-].
  - destruct (ui_step w e) as [w1|] eqn:E; [|discriminate].
    apply IH. now apply (ui_step_consistent w w1 e).
Qed.

(** Logout by the handlers alone: no request is issued and none is
    cancelled. *)
Lemma handle_logout (w : World) :
  handle w ClickLogout
  = Some (mkWorld (exec handleLogout_state (st w)) (handleLogout_refs (dom w))
                  (pendingLogin w) (pendingGenerate w) (sent w)).
Proof. reflexivity. Qed.

(** After a logout through the controls neither operation is loading and
    nothing is in flight. *)
Lemma ui_logout_leaves_idle (es : list Event) (w : World) :
  run ui_step initialWorld (es ++ [ClickLogout]) = Some w ->
  isLoggingIn (st w) = false /\ isGeneratingDesign (st w) = false
  /\ pendingLogin w = 0 /\ pendingGenerate w = 0.
Proof.
  rewrite run_app.
  destruct (run ui_step initialWorld es) as [w1|] eqn:E1; [|discriminate].
  cbn [run]. unfold ui_step.
  destruct (enabled w1 ClickLogout) eqn:En; [|discriminate].
  rewrite handle_logout. intros [= <-].
  cbn [enabled] in En. apply andb_true_iff in En as [EL EG].
  apply negb_true_iff in EG.
  destruct (run_ui_consistent es _ _ initialWorld_consistent E1)
    as (HL & HG & HLv & _ & _).
  cbn [st pendingLogin pendingGenerate]. rewrite handleLogout_state_run.
  cbn [isLoggingIn isGeneratingDesign]. rewrite HL, HG, EG.
  destruct (isLoggingIn (st w1)); [|tauto].
  rewrite HLv in EL by reflexivity. discriminate.
Qed.

End Runs.

(** * The claims about the diagram transformer *)

Section TransformerClaims.
Import JS Erd Design Scenario.

(** C6. On the design
    [{tables:[{name:"Users",columns:[{name:"id",type:"int",nullable:false}],relationships:[]}]}],
    received as the [designRecommendations] member of the response body, the
    transformer returns exactly the header line, the entity block of [Users]
    with the single column line [int id] (type, then name, no nullability
    mark) and no relationship line. *)
Theorem transform_users_example :
  generateMermaidERD (response_body users_design)
  = Ok ("erDiagram" ++ nl
        ++ "    Users {" ++ nl
        ++ "        int id" ++ nl
        ++ "    }" ++ nl).
Proof. reflexivity. Qed.

(** The bare design, not wrapped in a response body, is not what the
    function reads. *)
Example transform_bare_design_throws :
  generateMermaidERD (design_value users_design) = Throw TypeError.
Proof. reflexivity. Qed.

(** C7. For every well-formed design the output is the header, then the
    entity blocks in the order of [tables], then the relationship lines in
    table order and, within a table, in relationship order. Every
    relationship line is [<targetTable> }o--|| <table name> : relates], and a
    table whose [relationships] is absent or empty contributes none. *)
Theorem transform_order (d : DesignRecommendation) :
  generateMermaidERD (response_body d)
  = Ok (header_line
        ++ concat_all (map entity_block (tables d))
        ++ concat_all (flat_map relationship_lines (tables d)))
  /\ (forall t r,
        relationship_line t r
        = "    " ++ targetTable r ++ " }o--|| " ++ tbl_name t ++ " : relates" ++ nl)
  /\ (forall name cols,
        relationship_lines (mkTable name cols None) = []
        /\ relationship_lines (mkTable name cols (Some [])) = []).
Proof.
  split; [apply generateMermaidERD_transform | split; intros; repeat split].
Qed.

(** The second example of the specification: the relationship line of
    [Orders] comes after its entity block. *)
Example transform_orders_example :
  generateMermaidERD (response_body orders_design)
  = Ok ("erDiagram" ++ nl
        ++ "    Orders {" ++ nl
        ++ "        int user_id" ++ nl
        ++ "    }" ++ nl
        ++ "    Users }o--|| Orders : relates" ++ nl).
Proof. reflexivity. Qed.

(** C8. With no tables the output is the header line alone; and a table
    without columns, wherever it stands among the tables, still gets its
    entity block, the opening line directly followed by the closing one. *)
Theorem transform_empty_cases :
  generateMermaidERD (response_body (mkDesign [])) = Ok ("erDiagram" ++ nl)
  /\ forall before name rels after,
       generateMermaidERD
         (response_body (mkDesign (before ++ mkTable name [] rels :: after)))
       = Ok (header_line
             ++ concat_all (map entity_block before)
             ++ ("    " ++ name ++ " {" ++ nl ++ "    }" ++ nl)
             ++ concat_all (map entity_block after)
             ++ concat_all (flat_map relationship_lines
                              (before ++ mkTable name [] rels :: after))).
Proof.
  split; [reflexivity|]. intros before name rels after.
  rewrite generateMermaidERD_transform. unfold transform_spec.
  cbn [tables]. rewrite map_app, concat_all_app. cbn [map concat_all].
  unfold entity_block at 2. cbn [tbl_name columns map concat_all].
  rewrite !append_assoc. reflexivity.
Qed.

End TransformerClaims.

(** * The claims about the workflow controller *)

Section ControllerClaims.
Import JS App Session Design Scenario.

(** The request a click sends carries [generate_data] of the two inputs. *)
Lemma handleGenerateDesign_click_data (refs : Refs) (s s' : State)
    (req : Request) :
  handleGenerateDesign_click refs s = (s', Ok (Some req)) ->
  req_data req = generate_data (readRef (sourceTypeRef refs))
                               (readRef (connectionStringRef refs)).
Proof.
  destruct (to_string (token s)) as [t|e] eqn:E.
  - rewrite (handleGenerateDesign_click_sends refs s t E). now intros [= _ <-].
  - rewrite (handleGenerateDesign_click_throws refs s e E). discriminate.
Qed.

(** The data object of the request, in memory and serialised. *)
Lemma generate_data_sourceConfig (sourceType connectionString : string) :
  let data := generate_data sourceType connectionString in
  let is_csv := String.eqb sourceType "csv" in
  let is_api := String.eqb sourceType "api" in
  (config <- get_prop data "sourceConfig" ;; get_prop config "path")%result
  = Ok (if is_csv then VStr connectionString else VUndefined)
  /\ (config <- get_prop data "sourceConfig" ;; get_prop config "url")%result
     = Ok (if is_api then VStr connectionString else VUndefined)
  /\ stringify 0 data
     = Some ("{" ++ quote "sourceType" ++ ":" ++ quote sourceType
             ++ "," ++ quote "connectionString" ++ ":" ++ quote connectionString
             ++ "," ++ quote "sourceConfig" ++ ":"
             ++ (if is_csv
                 then "{" ++ quote "path" ++ ":" ++ quote connectionString ++ "}"
                 else if is_api
                 then "{" ++ quote "url" ++ ":" ++ quote connectionString ++ "}"
                 else "{}")
             ++ "}").
Proof.
  cbn zeta. split; [reflexivity | split; [reflexivity|]].
  unfold generate_data, stringify.
  destruct (String.eqb_spec sourceType "csv") as [->|Hcsv].
  - cbn -[quote]. now normalize_append.
  - destruct (String.eqb sourceType "api"); cbn -[quote];
      now normalize_append.
Qed.

(** C5. Whenever the stored token converts to text, a click on generate
    sends one request, to the generation end point, built from the two
    inputs read at the click. In its data object [sourceConfig.path] is the
    connection string when the source type is [csv] and [undefined]
    otherwise, [sourceConfig.url] is the connection string when the source
    type is [api] and [undefined] otherwise; and in the body on the wire an
    [undefined] member does not appear at all: [sourceConfig] is written
    with [path] alone for [csv], with [url] alone for [api], and as the empty
    object for every other source type. *)
Theorem sent_sourceConfig_derivation (w : World) (t : string) :
  to_string (token (st w)) = Ok t ->
  let sourceType := readRef (sourceTypeRef (dom w)) in
  let connectionString := readRef (connectionStringRef (dom w)) in
  let is_csv := String.eqb sourceType "csv" in
  let is_api := String.eqb sourceType "api" in
  exists w' req,
    handle w ClickGenerate = Some w'
    /\ sent w' = (sent w ++ [req])%list
    /\ req_url req = generate_url
    /\ (config <- get_prop (req_data req) "sourceConfig" ;;
        get_prop config "path")%result
       = Ok (if is_csv then VStr connectionString else VUndefined)
    /\ (config <- get_prop (req_data req) "sourceConfig" ;;
        get_prop config "url")%result
       = Ok (if is_api then VStr connectionString else VUndefined)
    /\ serialized_body req
       = Some ("{" ++ quote "sourceType" ++ ":" ++ quote sourceType
               ++ "," ++ quote "connectionString" ++ ":"
               ++ quote connectionString
               ++ "," ++ quote "sourceConfig" ++ ":"
               ++ (if is_csv
                   then "{" ++ quote "path" ++ ":" ++ quote connectionString
                          ++ "}"
                   else if is_api
                   then "{" ++ quote "url" ++ ":" ++ quote connectionString
                          ++ "}"
                   else "{}")
               ++ "}").
Proof.
  intros Ht. cbn zeta. cbn [handle].
  rewrite (handleGenerateDesign_click_sends (dom w) (st w) t Ht).
  do 2 eexists. split; [reflexivity|]. split; [reflexivity|].
  split; [reflexivity|]. unfold serialized_body. cbn [req_data].
  exact (generate_data_sourceConfig (readRef (sourceTypeRef (dom w)))
           (readRef (connectionStringRef (dom w)))).
Qed.

Lemma sent_sourceConfig_derivation_witness :
  exists w' req,
    handle (mkWorld (mkState true (VStr "t") None false false None None)
                    (mkRefs None None (Some "csv") (Some "/data/x.csv"))
                    0 0 [])
           ClickGenerate
    = Some w'
    /\ sent w' = [req]
    /\ req_url req = generate_url
    /\ serialized_body req
       = Some ("{" ++ quote "sourceType" ++ ":" ++ quote "csv"
               ++ "," ++ quote "connectionString" ++ ":" ++ quote "/data/x.csv"
               ++ "," ++ quote "sourceConfig" ++ ":"
               ++ "{" ++ quote "path" ++ ":" ++ quote "/data/x.csv" ++ "}"
               ++ "}").
Proof.
  destruct (sent_sourceConfig_derivation
              (mkWorld (mkState true (VStr "t") None false false None None)
                       (mkRefs None None (Some "csv") (Some "/data/x.csv"))
                       0 0 [])
              "t" eq_refl)
    as (w' & req & H1 & H2 & H3 & _ & _ & H6).
  exists w', req. split; [exact H1 | split; [exact H2 | split; [exact H3|]]].
  exact H6.
Defined.

(** The first example of section 8: a CSV source. *)
Example sourceConfig_csv_example :
  stringify 0 (generate_data "csv" "/data/x.csv")
  = Some ("{" ++ quote "sourceType" ++ ":" ++ quote "csv"
          ++ "," ++ quote "connectionString" ++ ":" ++ quote "/data/x.csv"
          ++ "," ++ quote "sourceConfig" ++ ":"
          ++ "{" ++ quote "path" ++ ":" ++ quote "/data/x.csv" ++ "}" ++ "}").
Proof. reflexivity. Qed.

(** C1, as stated, fails on the handler: invoked in the initial,
    unauthenticated state, [handleGenerateDesign] does not reject; it issues
    the request, and the bearer token it attaches is empty. *)
Lemma generate_without_session_sends_request :
  isLoggedIn initialState = false
  /\ handleGenerateDesign_click initialRefs initialState
     = (mkState false (VStr "") None false true None None,
        Ok (Some (mkRequest generate_url (generate_data "" "")
                    (Some "Bearer ")))).
Proof. split; reflexivity. Qed.

(** C1, amended. Driven through the rendered controls, a generation is only
    ever started while the session is authenticated: at the moment of the
    click [isLoggedIn] is true, that is, the last session event before it was
    a successful login, with no logout or failed login after it. *)
Theorem generate_only_while_authenticated (es1 es2 : list Event) (w : World) :
  run ui_step initialWorld (es1 ++ ClickGenerate :: es2) = Some w ->
  exists w1,
    run ui_step initialWorld es1 = Some w1
    /\ isLoggedIn (st w1) = true
    /\ authenticated_after false es1 = true.
Proof.
  rewrite run_app.
  destruct (run ui_step initialWorld es1) as [w1|] eqn:E1; [|discriminate].
  cbn [run]. unfold ui_step at 1.
  destruct (enabled w1 ClickGenerate) eqn:En; [|discriminate]. intros _.
  cbn [enabled] in En. apply andb_true_iff in En as [EL _].
  exists w1. split; [reflexivity | split; [exact EL|]].
  rewrite <- EL.
  symmetry. exact (run_handle_authenticated es1 _ _ (run_ui_handle es1 _ _ E1)).
Qed.

Lemma generate_only_while_authenticated_witness :
  exists w1,
    run ui_step initialWorld login_run = Some w1
    /\ isLoggedIn (st w1) = true
    /\ authenticated_after false login_run = true.
Proof.
  eapply (generate_only_while_authenticated login_run []).
  vm_compute. reflexivity.
Defined.

(** Even through the controls the token need not be non-empty: it is
    whatever the login body carried. *)
Example generate_with_empty_token :
  option_map (fun w => map req_authorization (sent w))
    (run ui_step initialWorld
       [UserInput credentials; SubmitLogin;
        LoginSettles (Resolved (VObj [("token", VStr "")])); ClickGenerate])
  = Some [None; Some "Bearer "].
Proof. reflexivity. Qed.

(** C2 at its failing input: after a rejected generation and a logout the
    login view is shown and still displays the message of the generation. *)
Theorem logout_leaves_error_visible :
  option_map (fun s => (view s, visible_error s))
    (state_after ui_step failed_generation_then_logout)
  = Some (LoginView, Some generate_failed_message).
Proof. reflexivity. Qed.

(** C3 at its failing input: a first generation stored a design and its
    diagram; a second one receives a 2xx body without
    [designRecommendations]. The transformer throws, the message is
    surfaced and the diagram stays, but the stored design text has already
    been replaced by the text of the malformed body. *)
Theorem malformed_body_overwrites_designResult :
  option_map designResult (state_after ui_step first_generation_run)
  = Some (stringify 2 (response_body users_design))
  /\ option_map designResult (state_after ui_step malformed_generation_run)
     = Some (stringify 2 malformed_body)
  /\ stringify 2 (response_body users_design) <> stringify 2 malformed_body
  /\ option_map databaseSchema (state_after ui_step malformed_generation_run)
     = option_map databaseSchema (state_after ui_step first_generation_run)
  /\ option_map error (state_after ui_step malformed_generation_run)
     = Some (Some generate_failed_message).
Proof. repeat split; vm_compute; discriminate. Qed.

(** The part of C3 that holds: a rejected request leaves both stored
    results as they were, and a transformer fault leaves the diagram. *)
Lemma generate_failure_keeps_results (s : State) :
  designResult (exec (handleGenerateDesign_settle Rejected) s) = designResult s
  /\ databaseSchema (exec (handleGenerateDesign_settle Rejected) s)
     = databaseSchema s
  /\ forall data e,
       Erd.generateMermaidERD data = Throw e ->
       databaseSchema (exec (handleGenerateDesign_settle (Resolved data)) s)
       = databaseSchema s.
Proof.
  repeat split. intros data e H.
  now rewrite (handleGenerateDesign_settle_fault data e s H).
Qed.

(** C4, as stated, fails on the handlers: nothing in them recognises a
    response as late. With a login in flight when logout runs, the response
    establishes the session; with a generation in flight when logout runs,
    the response stores the design and its diagram in the logged-out
    state. *)
Lemma late_responses_are_applied :
  option_map pendingLogin
    (run handle initialWorld [UserInput credentials; SubmitLogin; ClickLogout])
  = Some 1
  /\ state_after handle
       [UserInput credentials; SubmitLogin; ClickLogout;
        LoginSettles (Resolved token_body)]
     = Some (mkState true (VStr "t") None false false None None)
  /\ option_map pendingGenerate
       (run handle initialWorld (login_run ++ [ClickGenerate; ClickLogout]))
     = Some 1
  /\ state_after handle
       (login_run ++ [ClickGenerate; ClickLogout;
                      GenerateSettles (Resolved (response_body users_design))])
     = Some (mkState false (VStr "") None false false
               (stringify 2 (response_body users_design))
               (Some ("erDiagram" ++ nl ++ "    Users {" ++ nl
                      ++ "        int id" ++ nl ++ "    }" ++ nl))).
Proof. repeat split. Qed.

(** C4, amended. Driven through the rendered controls, logout never runs
    while a request is in flight: at the moment of a click on the logout
    button no login and no generation is pending. *)
Theorem logout_never_races (es1 es2 : list Event) (w : World) :
  run ui_step initialWorld (es1 ++ ClickLogout :: es2) = Some w ->
  exists w1,
    run ui_step initialWorld es1 = Some w1
    /\ pendingLogin w1 = 0
    /\ pendingGenerate w1 = 0.
Proof.
  rewrite run_app.
  destruct (run ui_step initialWorld es1) as [w1|] eqn:E1; [|discriminate].
  cbn [run]. unfold ui_step at 1.
  destruct (enabled w1 ClickLogout) eqn:En; [|discriminate]. intros _.
  cbn [enabled] in En. apply andb_true_iff in En as [EL EG].
  apply negb_true_iff in EG.
  destruct (run_ui_consistent es1 _ _ initialWorld_consistent E1)
    as (HL & HG & HLv & _ & _).
  exists w1. split; [reflexivity|]. rewrite HL, HG, EG. split; [|reflexivity].
  destruct (isLoggingIn (st w1)); [|reflexivity].
  rewrite HLv in EL by reflexivity. discriminate.
Qed.

Lemma logout_never_races_witness :
  exists w1,
    run ui_step initialWorld login_run = Some w1
    /\ pendingLogin w1 = 0
    /\ pendingGenerate w1 = 0.
Proof.
  eapply (logout_never_races login_run []).
  vm_compute. reflexivity.
Defined.

(** The logins the handler takes as failed are exactly those whose request
    was rejected or whose response body is [null] or [undefined]. *)
Lemma login_succeeds_false_iff (o : Outcome) :
  login_succeeds o = false
  <-> o = Rejected \/ o = Resolved VNull \/ o = Resolved VUndefined.
Proof.
  destruct o as [data|]; [|cbn; tauto].
  destruct data; cbn; try (split; [discriminate | intuition discriminate]);
    try tauto.
  destruct (lookup "token" fields);
    (split; [discriminate | intuition discriminate]).
Qed.

(** C9, as stated, fails on a response that is malformed but arrives with a
    2xx status: the handler does not look at the body beyond reading its
    [token] member. Through the form, a login resolved with the body [{}],
    or with a text body, ends logged in, with [undefined] as token, the
    design view on the screen and no message. *)
Lemma malformed_login_response_logs_in :
  state_after ui_step
    [UserInput credentials; SubmitLogin; LoginSettles (Resolved (VObj []))]
  = Some (mkState true VUndefined None false false None None)
  /\ state_after ui_step
       [UserInput credentials; SubmitLogin;
        LoginSettles (Resolved (VStr "Service unavailable"))]
     = Some (mkState true VUndefined None false false None None)
  /\ view (mkState true VUndefined None false false None None) = DesignView
  /\ visible_error (mkState true VUndefined None false false None None) = None.
Proof. repeat split. Qed.

(** C9, amended. Whenever a login fails in the handler's sense (the promise
    is rejected, that is a network failure or a status outside 2xx, or the
    body is [null] or [undefined] so that no [token] can be read) the flag
    [isLoggedIn] is false afterwards, the stored token is the one from
    before, the login view is shown, and it displays the login failure
    message. *)
Theorem login_failure_outcome (s : State) (o : Outcome) :
  login_succeeds o = false ->
  let s' := exec (handleLogin_settle o) s in
  isLoggedIn s' = false
  /\ token s' = token s
  /\ view s' = LoginView
  /\ visible_error s' = Some login_failed_message
  /\ isLoggingIn s' = false.
Proof.
  intros H. cbn zeta.
  destruct (handleLogin_settle_cases o s) as [[H' _]|[_ ->]];
    [congruence | repeat split].
Qed.

Lemma login_failure_outcome_witness :
  let s' := exec (handleLogin_settle Rejected) initialState in
  isLoggedIn s' = false
  /\ token s' = token initialState
  /\ view s' = LoginView
  /\ visible_error s' = Some login_failed_message
  /\ isLoggingIn s' = false.
Proof.
  apply (login_failure_outcome initialState Rejected). reflexivity.
Defined.

(** A resolved promise whose body merely lacks the [token] member is not a
    failure for the handler: it takes the success path and stores
    [undefined]. *)
Example login_body_without_token_succeeds :
  login_succeeds (Resolved (VObj [])) = true
  /\ exec (handleLogin_settle (Resolved (VObj []))) initialState
     = mkState true VUndefined None false false None None.
Proof. split; reflexivity. Qed.

(** In a run through the controls the token before a failed login is the
    empty one, so none is stored afterwards either, and the failure issues
    no request. *)
Lemma ui_login_failure_no_token (es : list Event) (w w' : World) (o : Outcome) :
  run ui_step initialWorld es = Some w ->
  login_succeeds o = false ->
  ui_step w (LoginSettles o) = Some w' ->
  isLoggedIn (st w') = false /\ token (st w') = VStr "" /\ sent w' = sent w.
Proof.
  intros Hrun Hfail Hstep.
  destruct (run_ui_consistent es _ _ initialWorld_consistent Hrun)
    as (HL & _ & HLv & _ & HT).
  unfold ui_step in Hstep. cbn [enabled handle] in Hstep.
  destruct (pendingLogin w) as [|n]; [discriminate|].
  injection Hstep as <-. cbn [st sent].
  destruct (handleLogin_settle_cases o (st w)) as [[H' _]|[_ ->]];
    [congruence|].
  cbn [isLoggedIn token].
  destruct (isLoggingIn (st w)); [|discriminate].
  repeat split. auto.
Qed.

(** C10. There is one error slot. Submitting a login empties it; so does
    starting a generation, whose state after the click shows no message
    unless the request could not even be built, in which case the message is
    that of this very generation. Both failure paths write the same slot. *)
Theorem request_start_clears_error (refs : Refs) (s : State) :
  error (exec (handleLogin_submit refs) s) = None
  /\ error (exec (handleGenerateDesign_click refs) s)
     = match to_string (token s) with
       | Ok _ => None
       | Throw _ => Some generate_failed_message
       end
  /\ error (exec (handleLogin_settle Rejected) s) = Some login_failed_message
  /\ error (exec (handleGenerateDesign_settle Rejected) s)
     = Some generate_failed_message.
Proof.
  split; [reflexivity | split; [|split; reflexivity]].
  unfold exec.
  destruct (to_string (token s)) as [t|e] eqn:E.
  - now rewrite (handleGenerateDesign_click_sends refs s t E).
  - now rewrite (handleGenerateDesign_click_throws refs s e E).
Qed.

End ControllerClaims.

(** * Further results on the diagram transformer *)

Section TransformerShape.
Import JS Erd Design Shape Scenario Invariants.

Lemma rbind_ok {A B} (r : result A) (k : A -> result B) (b : B) :
  rbind r k = Ok b -> exists a, r = Ok a /\ k a = Ok b.
Proof. destruct r as [a|e]; cbn; [eauto | discriminate]. Qed.

(** A value that has one readable member has them all readable. *)
Lemma get_prop_readable (v x : value) (k k' : string) :
  get_prop v k = Ok x -> exists y, get_prop v k' = Ok y.
Proof.
  destruct v; cbn; try discriminate; eauto.
  intros _. destruct (lookup k' fields); eauto.
Qed.

Lemma read_text_ok (v : value) (k : string) (s : string) :
  read_text v k = Ok s ->
  exists x, get_prop v k = Ok x /\ to_string x = Ok s.
Proof. apply rbind_ok. Qed.

Lemma forEach_items_extends {A} (cb : string -> A -> result string) :
  extends cb ->
  forall items acc r,
    forEach_items cb items acc = Ok r -> exists suffix, r = acc ++ suffix.
Proof.
  intros Hcb. induction items as [|x items IH]; intros acc r; cbn [forEach_items].
  - intros [= <-]. exists "". now rewrite append_nil_r.
  - intros H. apply rbind_ok in H as (acc' & H1 & H2).
    apply Hcb in H1 as (s1 & ->). apply IH in H2 as (s2 & ->).
    exists (s1 ++ s2). apply append_assoc.
Qed.

Lemma forEach_extends (cb : string -> value -> result string) :
  extends cb ->
  forall v acc r, forEach v cb acc = Ok r -> exists suffix, r = acc ++ suffix.
Proof.
  intros Hcb v acc r. destruct v; cbn [forEach]; try discriminate.
  now apply forEach_items_extends.
Qed.

Ltac invert_binds :=
  repeat match goal with
         | H : rbind _ _ = Ok _ |- _ =>
             let a := fresh "a" in
             let Ha := fresh "Ha" in
             apply rbind_ok in H as (a & Ha & H)
         end.

Lemma add_column_extends : extends add_column.
Proof.
  intros acc x acc' H. unfold add_column in H. invert_binds.
  injection H as <-. eauto.
Qed.

Lemma add_table_extends : extends add_table.
Proof.
  intros acc x acc' H. unfold add_table in H. invert_binds.
  injection H as <-.
  match goal with
  | H : forEach _ add_column _ = Ok _ |- _ =>
      apply (forEach_extends _ add_column_extends) in H as (s & ->)
  end.
  rewrite !append_assoc. eauto.
Qed.

Lemma add_relationship_extends (table : value) :
  extends (add_relationship table).
Proof.
  intros acc x acc' H. unfold add_relationship in H. invert_binds.
  injection H as <-. eauto.
Qed.

Lemma add_relationships_extends : extends add_relationships.
Proof.
  intros acc x acc' H. unfold add_relationships in H. invert_binds.
  destruct (truthy _).
  - now apply (forEach_extends _ (add_relationship_extends x)) in H.
  - injection H as <-. exists "". now rewrite append_nil_r.
Qed.

Lemma generateMermaidERD_header (v : value) (s : string) :
  generateMermaidERD v = Ok s -> exists rest, s = "erDiagram" ++ nl ++ rest.
Proof.
  unfold generateMermaidERD. intros H. invert_binds.
  apply (forEach_extends _ add_relationships_extends) in H as (s2 & ->).
  match goal with
  | H : forEach _ add_table _ = Ok _ |- _ =>
      apply (forEach_extends _ add_table_extends) in H as (s1 & ->)
  end.
  exists (s1 ++ s2). now rewrite !append_assoc.
Qed.

Lemma prefix_append (a b : string) : String.prefix a (a ++ b) = true.
Proof.
  induction a as [|c a IH]; cbn.
  - destruct b; reflexivity.
  - destruct (ascii_dec c c); [exact IH | congruence].
Qed.

(** X1. On any value at all, a result of the transformer begins with the
    header line: text is only ever appended to it. *)
Theorem transform_output_begins_with_header (v : value) (s : string) :
  generateMermaidERD v = Ok s ->
  String.prefix ("erDiagram" ++ nl) s = true.
Proof.
  intros H. apply generateMermaidERD_header in H as (rest & ->).
  rewrite <- append_assoc. apply prefix_append.
Qed.

Lemma transform_output_begins_with_header_witness :
  String.prefix ("erDiagram" ++ nl)
    ("erDiagram" ++ nl ++ "    Users {" ++ nl ++ "        int id" ++ nl
       ++ "    }" ++ nl) = true.
Proof.
  apply (transform_output_begins_with_header (response_body users_design)).
  reflexivity.
Defined.

(** When [forEach] gets through, the callback got through every item. *)
Lemma forEach_items_each {A} (cb : string -> A -> result string) :
  forall items acc r,
    forEach_items cb items acc = Ok r ->
    Forall (fun x => exists a a', cb a x = Ok a') items.
Proof.
  induction items as [|x items IH]; intros acc r; cbn [forEach_items].
  - constructor.
  - intros H. apply rbind_ok in H as (acc' & H1 & H2).
    constructor; [eauto | eapply IH; eassumption].
Qed.

Lemma forEach_array (v : value) (cb : string -> value -> result string)
    (acc r : string) :
  forEach v cb acc = Ok r ->
  exists items, v = VArr items /\ forEach_items cb items acc = Ok r.
Proof. destruct v; cbn [forEach]; try discriminate. eauto. Qed.

Lemma add_table_columns (acc acc' : string) (t : value) :
  add_table acc t = Ok acc' ->
  exists cvs, get_prop t "columns" = Ok (VArr cvs).
Proof.
  unfold add_table. intros H. invert_binds.
  match goal with
  | H : forEach _ add_column _ = Ok _ |- _ =>
      apply forEach_array in H as (cvs & -> & _)
  end.
  eauto.
Qed.

Lemma add_relationships_shape (acc acc' : string) (t : value) :
  add_relationships acc t = Ok acc' ->
  exists x, get_prop t "relationships" = Ok x
            /\ (truthy x = false \/ exists rvs, x = VArr rvs).
Proof.
  unfold add_relationships. intros H. invert_binds.
  eexists; split; [eassumption|].
  destruct (truthy _); [|now left].
  apply forEach_array in H as (rvs & -> & _). right; eauto.
Qed.

(** X2. The transformer returns only on a body of the right shape: the body
    has a readable [designRecommendations] whose [tables] is an array, every
    table has an array [columns], and its [relationships] is falsy or an
    array. On every other body it throws. *)
Theorem transform_returns_only_on_shape (v : value) (s : string) :
  generateMermaidERD v = Ok s ->
  exists recs tvs,
    get_prop v "designRecommendations" = Ok recs
    /\ get_prop recs "tables" = Ok (VArr tvs)
    /\ Forall table_shape tvs.
Proof.
  unfold generateMermaidERD. intros H. invert_binds.
  repeat match goal with
         | H1 : get_prop ?x ?k = Ok ?a, H2 : get_prop ?x ?k = Ok ?b |- _ =>
             rewrite H1 in H2; injection H2 as <-
         end.
  apply forEach_array in H as (tvs & -> & H2).
  match goal with
  | H : forEach _ add_table _ = Ok _ |- _ =>
      apply forEach_array in H as (tvs' & [= <-] & H1)
  end.
  do 2 eexists. split; [eassumption | split; [eassumption|]].
  apply forEach_items_each in H1, H2.
  rewrite Forall_forall in *. intros t Ht. split.
  - destruct (H1 t Ht) as (z & z' & Hz). eapply add_table_columns; eassumption.
  - destruct (H2 t Ht) as (z & z' & Hz).
    eapply add_relationships_shape; eassumption.
Qed.

Lemma transform_returns_only_on_shape_witness :
  exists recs tvs,
    get_prop (response_body users_design) "designRecommendations" = Ok recs
    /\ get_prop recs "tables" = Ok (VArr tvs)
    /\ Forall table_shape tvs.
Proof.
  eapply (transform_returns_only_on_shape (response_body users_design)).
  reflexivity.
Defined.

End TransformerShape.

Section TransformerCarriers.
Import JS Erd Design Shape Samples.

Lemma add_column_represents (acc : string) (v : value) (c : Column) :
  represents_column v c -> add_column acc v = Ok (acc ++ column_line c).
Proof.
  intros (Hty & Hnm).
  apply read_text_ok in Hty as (ty & Gty & Sty).
  apply read_text_ok in Hnm as (nm & Gnm & Snm).
  destruct (get_prop_readable v ty "type" "nullable" Gty) as (n & Gn).
  unfold add_column, column_line.
  rewrite Gn; cbn [rbind]. rewrite Gty; cbn [rbind]. rewrite Sty; cbn [rbind].
  rewrite Gnm; cbn [rbind]. rewrite Snm; cbn [rbind].
  destruct (truthy n); reflexivity.
Qed.

Lemma forEach_columns_represent (cvs : list value) (cs : list Column) :
  Forall2 represents_column cvs cs ->
  forall acc,
    forEach_items add_column cvs acc
    = Ok (acc ++ concat_all (map column_line cs)).
Proof.
  induction 1 as [|v c cvs cs Hv _ IH]; intros acc;
    cbn [map forEach_items concat_all].
  - now rewrite append_nil_r.
  - rewrite (add_column_represents acc v c Hv); cbn [rbind].
    now rewrite IH, append_assoc.
Qed.

Lemma add_table_represents (acc : string) (v : value) (t : Table) :
  represents_table v t -> add_table acc v = Ok (acc ++ entity_block t).
Proof.
  intros (Hnm & (cvs & Gc & Hc) & _).
  apply read_text_ok in Hnm as (nm & Gnm & Snm).
  unfold add_table, entity_block.
  rewrite Gnm; cbn [rbind]. rewrite Snm; cbn [rbind].
  rewrite Gc; cbn [rbind forEach].
  rewrite (forEach_columns_represent cvs (columns t) Hc); cbn [rbind].
  now rewrite !append_assoc.
Qed.

Lemma forEach_tables_represent (tvs : list value) (ts : list Table) :
  Forall2 represents_table tvs ts ->
  forall acc,
    forEach_items add_table tvs acc
    = Ok (acc ++ concat_all (map entity_block ts)).
Proof.
  induction 1 as [|v t tvs ts Hv _ IH]; intros acc;
    cbn [map forEach_items concat_all].
  - now rewrite append_nil_r.
  - rewrite (add_table_represents acc v t Hv); cbn [rbind].
    now rewrite IH, append_assoc.
Qed.

Lemma forEach_relationships_represent (tv : value) (t : Table)
    (rvs : list value) (rs : list Relationship) :
  read_text tv "name" = Ok (tbl_name t) ->
  Forall2 represents_relationship rvs rs ->
  forall acc,
    forEach_items (add_relationship tv) rvs acc
    = Ok (acc ++ concat_all (map (relationship_line t) rs)).
Proof.
  intros Hnm. apply read_text_ok in Hnm as (nm & Gnm & Snm).
  induction 1 as [|v r rvs rs Hv _ IH]; intros acc;
    cbn [map forEach_items concat_all].
  - now rewrite append_nil_r.
  - apply read_text_ok in Hv as (tt & Gtt & Stt).
    unfold add_relationship at 1.
    rewrite Gtt; cbn [rbind]. rewrite Stt; cbn [rbind].
    rewrite Gnm; cbn [rbind]. rewrite Snm; cbn [rbind].
    rewrite IH. unfold relationship_line at 2. now rewrite !append_assoc.
Qed.

Lemma add_relationships_represents (acc : string) (v : value) (t : Table) :
  represents_table v t ->
  add_relationships acc v = Ok (acc ++ concat_all (relationship_lines t)).
Proof.
  intros (Hnm & _ & Hr). unfold add_relationships, relationship_lines.
  destruct (relationships t) as [rs|].
  - destruct Hr as (rvs & Gr & Hrs). rewrite Gr; cbn [rbind truthy forEach].
    now apply forEach_relationships_represent.
  - destruct Hr as (x & Gr & Hx). rewrite Gr; cbn [rbind]. rewrite Hx.
    cbn [concat_all]. now rewrite append_nil_r.
Qed.

Lemma forEach_tables_relationships_represent (tvs : list value)
    (ts : list Table) :
  Forall2 represents_table tvs ts ->
  forall acc,
    forEach_items add_relationships tvs acc
    = Ok (acc ++ concat_all (flat_map relationship_lines ts)).
Proof.
  induction 1 as [|v t tvs ts Hv _ IH]; intros acc;
    cbn [flat_map forEach_items concat_all].
  - now rewrite append_nil_r.
  - rewrite (add_relationships_represents acc v t Hv); cbn [rbind].
    now rewrite IH, concat_all_app, append_assoc.
Qed.

(** The value built from a design carries it. *)
Lemma response_body_represents (d : DesignRecommendation) :
  represents_design (response_body d) d.
Proof.
  exists (design_value d), (map table_value (tables d)).
  split; [reflexivity | split; [reflexivity|]].
  induction (tables d) as [|t ts IH]; cbn [map]; constructor; [|exact IH].
  split; [reflexivity | split].
  - exists (map column_value (columns t)). split; [reflexivity|].
    induction (columns t) as [|c cs IHc]; cbn [map]; constructor;
      [split; reflexivity | exact IHc].
  - rewrite table_value_relationships.
    destruct (relationships t) as [rs|].
    + exists (map relationship_value rs). split; [reflexivity|].
      induction rs as [|r rs IHr]; cbn [map]; constructor;
        [reflexivity | exact IHr].
    + exists VUndefined. split; reflexivity.
Qed.

Lemma generateMermaidERD_represents (v : value) (d : DesignRecommendation) :
  represents_design v d ->
  generateMermaidERD v = Ok (transform_spec d).
Proof.
  intros (recs & tvs & Grecs & Gtabs & Hts).
  unfold generateMermaidERD, transform_spec, header_line.
  rewrite Grecs; cbn [rbind]. rewrite Gtabs; cbn [rbind forEach].
  rewrite (forEach_tables_represent tvs (tables d) Hts); cbn [rbind].
  rewrite (forEach_tables_relationships_represent tvs (tables d) Hts).
  now rewrite !append_assoc.
Qed.

(** Numbers are interpolated with the text JavaScript gives them. *)
Example transform_prints_number_names :
  generateMermaidERD exponent_body
  = Ok ("erDiagram" ++ nl ++ "    1e+21 {" ++ nl ++ "    }" ++ nl)
  /\ represents_design exponent_body exponent_design.
Proof.
  split; [reflexivity|].
  eexists. eexists. split; [reflexivity | split; [reflexivity|]].
  constructor; [|constructor].
  split; [reflexivity | split].
  - eexists. split; [reflexivity | constructor].
  - exists VUndefined. split; reflexivity.
Qed.

(** X3. The transformer reads only [designRecommendations.tables] and, of
    each table, [name], [columns] (of each column [type] and [name]) and
    [relationships] (of each entry [targetTable]). On every body whose reads
    give the rows of a design, whatever other members it has, in whatever
    order, and with any falsy value for a missing [relationships], it
    returns the text of that design. *)
Theorem transform_on_any_carrier (v : value) (d : DesignRecommendation) :
  represents_design v d ->
  generateMermaidERD v = Ok (transform_spec d).
Proof. apply generateMermaidERD_represents. Qed.

Lemma transform_on_any_carrier_witness :
  generateMermaidERD annotated_body = Ok (transform_spec annotated_design).
Proof.
  apply (transform_on_any_carrier annotated_body annotated_design).
  eexists. eexists. split; [reflexivity | split; [reflexivity|]].
  constructor; [|constructor].
  split; [reflexivity | split].
  - eexists. split; [reflexivity|].
    constructor; [split; reflexivity | constructor].
  - exists VNull. split; reflexivity.
Defined.

End TransformerCarriers.

(** * Further results on the workflow controller: the handlers in any order *)

Section HandlerRuns.
Import JS App Session History Invariants Scenario Samples.

(** What one event adds to the log of requests. *)
Lemma handle_sent (w w' : World) (e : Event) :
  handle w e = Some w' ->
  sent w' = sent w
  \/ (is_submission e = true
      /\ exists r, sent w' = (sent w ++ [r])%list
                   /\ (login_request r \/ generate_request_shape r)).
Proof.
  destruct e as [refs| |o| |o|]; cbn [handle is_submission].
  - intros [= <-]. now left.
  - rewrite handleLogin_submit_run. intros [= <-]. right.
    split; [reflexivity|]. eexists. split; [reflexivity|]. left.
    split; [reflexivity | split; [reflexivity|]].
    do 2 eexists. reflexivity.
  - destruct (pendingLogin w); [discriminate|]. intros [= <-]. now left.
  - destruct (to_string (token (st w))) as [t|err] eqn:E.
    + rewrite (handleGenerateDesign_click_sends (dom w) (st w) t E).
      intros [= <-]. right. split; [reflexivity|].
      eexists. split; [reflexivity|]. right.
      split; [reflexivity | split].
      * exists t. reflexivity.
      * do 2 eexists. reflexivity.
    + rewrite (handleGenerateDesign_click_throws (dom w) (st w) err E).
      intros [= <-]. now left.
  - destruct (pendingGenerate w); [discriminate|]. intros [= <-]. now left.
  - unfold handleLogout. intros [= <-]. now left.
Qed.

Lemma run_handle_requests (es : list Event) : forall w w',
  Forall (fun r => login_request r \/ generate_request_shape r) (sent w) ->
  run handle w es = Some w' ->
  Forall (fun r => login_request r \/ generate_request_shape r) (sent w').
Proof.
  induction es as [|e es IH]; intros w w' Hw; cbn [run].
  - now intros [= <-].
  - destruct (handle w e) as [w1|] eqn:E; [|discriminate].
    apply IH. destruct (handle_sent w w1 e E) as [->|(_ & r & -> & Hr)];
      [exact Hw|].
    apply Forall_app. split; [exact Hw | now constructor].
Qed.

(** X4. Whatever the order of events, the component issues only two kinds of
    request: a POST to the login end point with a username and a password
    and no Authorization header, or a POST to the generation end point with
    an Authorization header that starts with [Bearer ] and the data object
    of section 3. *)
Theorem only_two_kinds_of_request (es : list Event) (w : World) :
  run handle initialWorld es = Some w ->
  Forall (fun r => login_request r \/ generate_request_shape r) (sent w).
Proof. apply run_handle_requests. constructor. Qed.

Lemma only_two_kinds_of_request_witness :
  Forall (fun r => login_request r \/ generate_request_shape r)
    (sent (world_after handle (login_run ++ [ClickGenerate]))).
Proof.
  apply (only_two_kinds_of_request (login_run ++ [ClickGenerate])).
  vm_compute. reflexivity.
Defined.




End HandlerRuns.

Section HandlerRunsState.
Import JS App Session History Invariants Scenario Samples.

Lemma handle_token (w w' : World) (e : Event) :
  handle w e = Some w' ->
  token (st w') = token_after (token (st w)) [e].
Proof.
  destruct e as [refs| |o| |o|]; cbn [handle token_after].
  - intros [= <-]. reflexivity.
  - rewrite handleLogin_submit_run. intros [= <-]. reflexivity.
  - destruct (pendingLogin w); [discriminate|]. intros [= <-]. cbn [st].
    destruct o as [data|]; [|reflexivity].
    destruct (get_prop data "token") as [tok|err] eqn:E.
    + now rewrite (handleLogin_settle_resolved data tok (st w) E).
    + now rewrite (handleLogin_settle_unreadable data err (st w) E).
  - destruct (handleGenerateDesign_click_cases (dom w) (st w)) as [[req ->]| ->];
      intros [= <-]; reflexivity.
  - destruct (pendingGenerate w); [discriminate|]. intros [= <-]. cbn [st].
    apply (handleGenerateDesign_settle_flags o (st w)).
  - unfold handleLogout. intros [= <-]. reflexivity.
Qed.

Lemma token_after_cons (b : value) (e : Event) (es : list Event) :
  token_after b (e :: es) = token_after (token_after b [e]) es.
Proof.
  destruct e as [refs| |o| |o|]; try reflexivity.
  destruct o as [data|]; [|reflexivity]. cbn [token_after].
  destruct (get_prop data "token"); reflexivity.
Qed.

Lemma run_handle_token (es : list Event) : forall w w',
  run handle w es = Some w' ->
  token (st w') = token_after (token (st w)) es.
Proof.
  induction es as [|e es IH]; intros w w'; cbn [run].
  - intros [= <-]. reflexivity.
  - destruct (handle w e) as [w1|] eqn:E; [|discriminate]. intros H.
    rewrite token_after_cons, <- (handle_token _ _ _ E). now apply IH.
Qed.

(** A token that is a number goes into the header with the text JavaScript
    gives it. *)
Example bearer_of_number_token :
  generate_request "" "" (VNum (mkNumber "1e+21" false true))
  = Ok (mkRequest generate_url (generate_data "" "") (Some "Bearer 1e+21")).
Proof. reflexivity. Qed.

(** X6. The credential a generation request carries is the token of the
    latest successful login response, converted as a template literal does,
    or the empty string when a logout came after it: whenever that token
    converts to a text [t], a click on generate sends exactly one request,
    to the generation end point, with the header [Bearer t] and the data of
    the two inputs. *)
Theorem bearer_is_latest_login_token (es : list Event) (w : World)
    (t : string) :
  run handle initialWorld es = Some w ->
  to_string (token_after (VStr "") es) = Ok t ->
  exists w',
    handle w ClickGenerate = Some w'
    /\ sent w'
       = (sent w
          ++ [mkRequest generate_url
                (generate_data (readRef (sourceTypeRef (dom w)))
                               (readRef (connectionStringRef (dom w))))
                (Some ("Bearer " ++ t)%string)])%list.
Proof.
  intros Hrun Ht.
  change (VStr "") with (token (st initialWorld)) in Ht.
  rewrite <- (run_handle_token es _ _ Hrun) in Ht.
  cbn [handle].
  rewrite (handleGenerateDesign_click_sends (dom w) (st w) t Ht).
  eexists. split; reflexivity.
Qed.

Lemma bearer_is_latest_login_token_witness :
  let w := world_after handle (login_run ++ [UserInput csv_inputs]) in
  exists w',
    handle w ClickGenerate = Some w'
    /\ sent w'
       = (sent w
          ++ [mkRequest generate_url
                (generate_data (readRef (sourceTypeRef (dom w)))
                               (readRef (connectionStringRef (dom w))))
                (Some ("Bearer " ++ "t")%string)])%list.
Proof.
  apply (bearer_is_latest_login_token (login_run ++ [UserInput csv_inputs]));
    vm_compute; reflexivity.
Defined.

Lemma stems_from_incl (bodies bodies' : list value) (s : State) :
  incl bodies bodies' -> stems_from bodies s -> stems_from bodies' s.
Proof.
  intros Hi (H1 & H2). split.
  - intros schema E. destruct (H1 schema E) as (data & Hin & Hd). eauto.
  - intros text E. destruct (H2 text E) as (data & Hin & Hd). eauto.
Qed.

Lemma stems_from_same (bodies : list value) (s s' : State) :
  designResult s' = designResult s ->
  databaseSchema s' = databaseSchema s ->
  stems_from bodies s -> stems_from bodies s'.
Proof. unfold stems_from. intros -> ->. tauto. Qed.

Lemma handle_stems (w w' : World) (e : Event) (bodies : list value) :
  handle w e = Some w' ->
  stems_from bodies (st w) ->
  stems_from (received_bodies [e] bodies) (st w').
Proof.
  destruct e as [refs| |o| |o|]; cbn [handle received_bodies].
  - intros [= <-]. tauto.
  - rewrite handleLogin_submit_run. intros [= <-].
    now apply stems_from_same.
  - destruct (pendingLogin w); [discriminate|]. intros [= <-]. cbn [st].
    destruct (handleLogin_settle_cases o (st w)) as [[_ [tok ->]]|[_ ->]];
      now apply stems_from_same.
  - destruct (handleGenerateDesign_click_cases (dom w) (st w)) as [[req ->]| ->];
      intros [= <-]; now apply stems_from_same.
  - destruct (pendingGenerate w); [discriminate|]. intros [= <-]. cbn [st].
    destruct o as [data|].
    + destruct (Erd.generateMermaidERD data) as [schema|err] eqn:E.
      * rewrite (handleGenerateDesign_settle_success data schema (st w) E).
        intros _. split; cbn [databaseSchema designResult].
        -- intros x [= <-]. exists data. split; [now left | exact E].
        -- intros x Hx. exists data. split; [now left | exact Hx].
      * rewrite (handleGenerateDesign_settle_fault data err (st w) E).
        intros (H1 & _). split; cbn [databaseSchema designResult].
        -- intros x Hx. destruct (H1 x Hx) as (d & Hin & Hd).
           exists d. split; [now right | exact Hd].
        -- intros x Hx. exists data. split; [now left | exact Hx].
    + rewrite handleGenerateDesign_settle_rejected.
      now apply stems_from_same.
  - unfold handleLogout. intros [= <-] _. split; cbn; discriminate.
Qed.

Lemma received_bodies_cons (e : Event) (es : list Event) (acc : list value) :
  received_bodies (e :: es) acc = received_bodies es (received_bodies [e] acc).
Proof. destruct e as [refs| |o| |o|]; try reflexivity. now destruct o. Qed.

Lemma run_handle_stems (es : list Event) : forall w w' bodies,
  run handle w es = Some w' ->
  stems_from bodies (st w) ->
  stems_from (received_bodies es bodies) (st w').
Proof.
  induction es as [|e es IH]; intros w w' bodies; cbn [run].
  - intros [= <-]. tauto.
  - destruct (handle w e) as [w1|] eqn:E; [|discriminate]. intros H Hs.
    rewrite received_bodies_cons. eapply IH; [exact H|].
    now apply (handle_stems w w1 e).
Qed.

(** X7. Nothing the component stores as a result is made up: at any moment,
    whatever the order of events, a stored diagram is the transformer's
    output on a body some generation request resolved with, hence begins
    with the header line, and a stored design text is the serialisation of
    such a body. *)
Theorem stored_results_stem_from_responses (es : list Event) (w : World) :
  run handle initialWorld es = Some w ->
  stems_from (received_bodies es []) (st w)
  /\ forall schema,
       databaseSchema (st w) = Some schema ->
       String.prefix ("erDiagram" ++ nl) schema = true.
Proof.
  intros H.
  assert (Hs : stems_from (received_bodies es []) (st w)).
  { eapply run_handle_stems; [exact H|]. split; cbn; discriminate. }
  split; [exact Hs|]. intros schema E.
  destruct Hs as (H1 & _). destruct (H1 schema E) as (data & _ & Hd).
  apply generateMermaidERD_header in Hd as (rest & ->).
  rewrite <- append_assoc. apply prefix_append.
Qed.

Lemma stored_results_stem_from_responses_witness :
  let w := world_after handle first_generation_run in
  stems_from (received_bodies first_generation_run []) (st w)
  /\ forall schema,
       databaseSchema (st w) = Some schema ->
       String.prefix ("erDiagram" ++ nl) schema = true.
Proof.
  apply (stored_results_stem_from_responses first_generation_run).
  vm_compute. reflexivity.
Defined.

End HandlerRunsState.

(** * Further results on the workflow controller: runs through the controls *)

Section ControlRuns.
Import JS App Session History Invariants Render Scenario Samples.

Lemma initialWorld_settled : settled initialWorld.
Proof.
  split; [exact initialWorld_consistent|].
  split; [intros _; repeat split | split; intros _; reflexivity].
Qed.

Lemma ui_step_settled (w w' : World) (e : Event) :
  settled w -> ui_step w e = Some w' -> settled w'.
Proof.
  intros (Hc & Hclean & Hq1 & Hq2) Hstep.
  split; [exact (ui_step_consistent w w' e Hc Hstep)|].
  destruct Hc as (HL & HG & HLv & HGv & _).
  unfold logged_out_clean, quiet_while_loading in *.
  unfold ui_step in Hstep.
  destruct e as [refs| |o| |o|]; cbn [enabled handle] in Hstep.
  - injection Hstep as <-. cbn [st]. tauto.
  - destruct (isLoggedIn (st w)) eqn:EL; cbn [negb andb] in Hstep;
      [discriminate|].
    destruct (_ && _) in Hstep; [|discriminate].
    rewrite handleLogin_submit_run in Hstep. injection Hstep as <-.
    cbn [st isLoggedIn token designResult databaseSchema error isLoggingIn
         isGeneratingDesign].
    rewrite EL. tauto.
  - destruct (pendingLogin w) as [|n]; [discriminate|].
    injection Hstep as <-. cbn [st].
    destruct (isLoggingIn (st w)) eqn:ELi; [|discriminate].
    specialize (HLv eq_refl).
    assert (EG : isGeneratingDesign (st w) = false).
    { destruct (isGeneratingDesign (st w)); [|reflexivity].
      rewrite HGv in HLv by reflexivity. discriminate. }
    destruct (handleLogin_settle_cases o (st w)) as [[_ [tok ->]]|[_ ->]];
      cbn [isLoggedIn token designResult databaseSchema error isLoggingIn
           isGeneratingDesign];
      rewrite EG; intuition congruence.
  - destruct (isLoggedIn (st w)) eqn:EL; cbn [andb] in Hstep; [|discriminate].
    destruct (isGeneratingDesign (st w)) eqn:EG; cbn [negb] in Hstep;
      [discriminate|].
    assert (ELi : isLoggingIn (st w) = false).
    { destruct (isLoggingIn (st w)); [|reflexivity].
      specialize (HLv eq_refl). discriminate. }
    destruct (handleGenerateDesign_click_cases (dom w) (st w))
      as [[req Hreq]|Hreq]; rewrite Hreq in Hstep; injection Hstep as <-;
      cbn [st isLoggedIn token designResult databaseSchema error isLoggingIn
           isGeneratingDesign];
      rewrite EL, ELi; intuition congruence.
  - destruct (pendingGenerate w) as [|n]; [discriminate|].
    injection Hstep as <-. cbn [st].
    destruct (isGeneratingDesign (st w)) eqn:EG; [|discriminate].
    specialize (HGv eq_refl).
    assert (ELi : isLoggingIn (st w) = false).
    { destruct (isLoggingIn (st w)); [|reflexivity].
      rewrite HLv in HGv by reflexivity. discriminate. }
    destruct (handleGenerateDesign_settle_flags o (st w)) as (-> & _ & -> & ->).
    rewrite HGv, ELi. intuition congruence.
  - destruct (isLoggedIn (st w)) eqn:EL; cbn [andb] in Hstep; [|discriminate].
    destruct (isGeneratingDesign (st w)) eqn:EG; cbn [negb] in Hstep;
      [discriminate|].
    assert (ELi : isLoggingIn (st w) = false).
    { destruct (isLoggingIn (st w)); [|reflexivity].
      specialize (HLv eq_refl). discriminate. }
    unfold handleLogout in Hstep. injection Hstep as <-. cbn [st].
    rewrite handleLogout_state_run.
    cbn [isLoggedIn token designResult databaseSchema error isLoggingIn
         isGeneratingDesign].
    rewrite EG, ELi. intuition congruence.
Qed.

Lemma run_ui_settled (es : list Event) : forall w w',
  settled w -> run ui_step w es = Some w' -> settled w'.
Proof.
  induction es as [|e es IH]; intros w w' Hs; cbn [run].
  - now intros [= <-].
  - destruct (ui_step w e) as [w1|] eqn:E; [|discriminate].
    apply IH. now apply (ui_step_settled w w1 e).
Qed.

(** X8. Through the controls at most one request is in flight at any
    moment, never a login together with a generation, and each loading flag
    is up exactly while the request of its kind is pending: no spinner is
    ever left turning and none is missing. *)
Theorem one_request_at_a_time (es : list Event) (w : World) :
  run ui_step initialWorld es = Some w ->
  pendingLogin w + pendingGenerate w <= 1
  /\ (isLoggingIn (st w) = true <-> pendingLogin w = 1)
  /\ (isGeneratingDesign (st w) = true <-> pendingGenerate w = 1).
Proof.
  intros H.
  destruct (run_ui_consistent es _ _ initialWorld_consistent H)
    as (HL & HG & HLv & HGv & _).
  rewrite HL, HG.
  destruct (isLoggingIn (st w)), (isGeneratingDesign (st w));
    cbn; repeat split; intros; try lia; try congruence.
  specialize (HLv eq_refl). specialize (HGv eq_refl). congruence.
Qed.

Lemma one_request_at_a_time_witness :
  let w := world_after ui_step (login_run ++ [ClickGenerate]) in
  pendingLogin w + pendingGenerate w <= 1
  /\ (isLoggingIn (st w) = true <-> pendingLogin w = 1)
  /\ (isGeneratingDesign (st w) = true <-> pendingGenerate w = 1).
Proof.
  apply (one_request_at_a_time (login_run ++ [ClickGenerate])).
  vm_compute. reflexivity.
Defined.

(** X9. Through the controls the component holds nothing of a session while
    logged out: whenever [isLoggedIn] is false the token is the empty string
    and neither a design text nor a diagram is stored. *)
Theorem logged_out_holds_nothing (es : list Event) (w : World) :
  run ui_step initialWorld es = Some w ->
  isLoggedIn (st w) = false ->
  token (st w) = VStr ""
  /\ designResult (st w) = None
  /\ databaseSchema (st w) = None.
Proof.
  intros H. exact (proj1 (proj2 (run_ui_settled es _ _ initialWorld_settled H))).
Qed.

Lemma logged_out_holds_nothing_witness :
  let w := world_after ui_step (first_generation_run ++ [ClickLogout]) in
  token (st w) = VStr ""
  /\ designResult (st w) = None
  /\ databaseSchema (st w) = None.
Proof.
  apply (logged_out_holds_nothing (first_generation_run ++ [ClickLogout]));
    vm_compute; reflexivity.
Defined.

(** X10. Through the controls, what is on the screen while a request is
    pending is fixed: during a login the login form with its fields and
    button disabled, the spinner in the button and no message; during a
    generation the design view with all four controls disabled, the spinner
    row, no message and no result panel, even when an earlier diagram is
    stored. *)
Theorem screen_while_pending (es : list Event) (w : World) :
  run ui_step initialWorld es = Some w ->
  (pendingLogin w = 1 ->
   render (st w) = LoginForm (mkLoginFormView None true true))
  /\ (pendingGenerate w = 1 ->
      render (st w)
      = DesignInterface (mkDesignInterfaceView true None true false None)).
Proof.
  intros H.
  destruct (run_ui_settled es _ _ initialWorld_settled H)
    as ((HL & HG & HLv & HGv & _) & _ & Hq1 & Hq2).
  unfold render, panel_visible. split; intros Hp.
  - rewrite Hp in HL. destruct (isLoggingIn (st w)); [|discriminate].
    rewrite (HLv eq_refl), (Hq1 eq_refl). reflexivity.
  - rewrite Hp in HG. destruct (isGeneratingDesign (st w)); [|discriminate].
    rewrite (HGv eq_refl), (Hq2 eq_refl). cbn.
    destruct (shown (designResult (st w))); reflexivity.
Qed.

Lemma screen_while_pending_witness :
  let w := world_after ui_step (first_generation_run ++ [ClickGenerate]) in
  pendingGenerate w = 1
  /\ databaseSchema (st w) <> None
  /\ render (st w)
     = DesignInterface (mkDesignInterfaceView true None true false None).
Proof.
  cbn zeta. split; [vm_compute; reflexivity|].
  split; [vm_compute; discriminate|].
  apply (proj2 (screen_while_pending
                  (first_generation_run ++ [ClickGenerate])
                  (world_after ui_step (first_generation_run ++ [ClickGenerate]))
                  ltac:(vm_compute; reflexivity))).
  vm_compute. reflexivity.
Defined.

End ControlRuns.

Section ControlRunsScreen.
Import JS App Session History Invariants Render Design Shape Scenario Samples.

Lemma ui_step_filled (w w' : World) (e : Event) :
  Forall filled_login_request (sent w) ->
  ui_step w e = Some w' ->
  Forall filled_login_request (sent w').
Proof.
  intros Hw Hstep. unfold ui_step in Hstep.
  destruct (enabled w e) eqn:En; [|discriminate].
  destruct e as [refs| |o| |o|]; cbn [handle] in Hstep.
  - injection Hstep as <-. exact Hw.
  - cbn [enabled] in En.
    apply andb_true_iff in En as [En Hp]. apply andb_true_iff in En as [_ Hu].
    apply negb_true_iff, String.eqb_neq in Hu, Hp.
    rewrite handleLogin_submit_run in Hstep. injection Hstep as <-.
    cbn [sent]. apply Forall_app. split; [exact Hw|].
    constructor; [|constructor].
    intros _. do 2 eexists. split; [reflexivity | split; assumption].
  - destruct (pendingLogin w); [discriminate|]. injection Hstep as <-.
    exact Hw.
  - destruct (to_string (token (st w))) as [t|err] eqn:E.
    + rewrite (handleGenerateDesign_click_sends (dom w) (st w) t E) in Hstep.
      injection Hstep as <-. cbn [sent]. apply Forall_app.
      split; [exact Hw|]. constructor; [|constructor].
      intros Hurl. cbn [req_url] in Hurl. discriminate.
    + rewrite (handleGenerateDesign_click_throws (dom w) (st w) err E) in Hstep.
      injection Hstep as <-. exact Hw.
  - destruct (pendingGenerate w); [discriminate|]. injection Hstep as <-.
    exact Hw.
  - unfold handleLogout in Hstep. injection Hstep as <-. exact Hw.
Qed.

(** X11. Through the form no login request goes out with an empty user name
    or an empty password: both fields are [required]. *)
Theorem login_requests_are_filled (es : list Event) (w : World) :
  run ui_step initialWorld es = Some w ->
  Forall filled_login_request (sent w).
Proof.
  assert (G : forall es w0 w1,
             Forall filled_login_request (sent w0) ->
             run ui_step w0 es = Some w1 ->
             Forall filled_login_request (sent w1)).
  { clear. induction es as [|e es IH]; intros w0 w1 H0; cbn [run].
    - now intros [= <-].
    - destruct (ui_step w0 e) as [w2|] eqn:E; [|discriminate].
      apply IH. now apply (ui_step_filled w0 w2 e). }
  apply G. constructor.
Qed.

Lemma login_requests_are_filled_witness :
  Forall filled_login_request (sent (world_after ui_step login_run)).
Proof.
  apply (login_requests_are_filled login_run).
  vm_compute. reflexivity.
Defined.

(** Without the form the handler sends what the fields hold, empty or not. *)
Example handler_sends_empty_credentials :
  option_map (fun w => map req_data (sent w))
    (run handle initialWorld [SubmitLogin])
  = Some [VObj [("username", VStr ""); ("password", VStr "")]].
Proof. reflexivity. Qed.

(** X12. A logout through the controls puts the component back into its
    initial state in everything but the error slot, which it leaves as it
    was: logged out, empty token, nothing loading, no stored result; all
    four inputs read empty and no request is sent. *)
Theorem logout_returns_to_start (es : list Event) (w : World) :
  run ui_step initialWorld (es ++ [ClickLogout]) = Some w ->
  exists w1,
    run ui_step initialWorld es = Some w1
    /\ st w = mkState false (VStr "") (error (st w1)) false false None None
    /\ sent w = sent w1
    /\ readRef (usernameRef (dom w)) = ""
    /\ readRef (passwordRef (dom w)) = ""
    /\ readRef (sourceTypeRef (dom w)) = ""
    /\ readRef (connectionStringRef (dom w)) = "".
Proof.
  intros H. pose proof (ui_logout_leaves_idle es w H) as (ELi & EG & _).
  rewrite run_app in H.
  destruct (run ui_step initialWorld es) as [w1|] eqn:E1; [|discriminate].
  cbn [run] in H. unfold ui_step in H.
  destruct (enabled w1 ClickLogout); [|discriminate].
  rewrite handle_logout in H. injection H as <-.
  cbn [st dom sent] in *. rewrite handleLogout_state_run in *.
  cbn [isLoggingIn isGeneratingDesign] in ELi, EG. rewrite ELi, EG.
  exists w1. unfold handleLogout_refs.
  cbn [usernameRef passwordRef sourceTypeRef connectionStringRef].
  rewrite !readRef_clearRef. repeat split.
Qed.

Lemma logout_returns_to_start_witness :
  let es := (first_generation_run ++ [UserInput csv_inputs])%list in
  let w := world_after ui_step (es ++ [ClickLogout]) in
  exists w1,
    run ui_step initialWorld es = Some w1
    /\ st w = mkState false (VStr "") (error (st w1)) false false None None
    /\ sent w = sent w1
    /\ readRef (usernameRef (dom w)) = ""
    /\ readRef (passwordRef (dom w)) = ""
    /\ readRef (sourceTypeRef (dom w)) = ""
    /\ readRef (connectionStringRef (dom w)) = "".
Proof.
  apply (logout_returns_to_start
           (first_generation_run ++ [UserInput csv_inputs])).
  vm_compute. reflexivity.
Defined.

(** X13. A successful login through the form always lands on a clean design
    view: the token of the body is stored as it is, no message is shown,
    nothing is loading, the controls are enabled, and no result of an
    earlier session is there to show. *)
Theorem fresh_login_lands_clean (es : list Event) (w w' : World)
    (data tok : value) :
  run ui_step initialWorld es = Some w ->
  get_prop data "token" = Ok tok ->
  ui_step w (LoginSettles (Resolved data)) = Some w' ->
  st w' = mkState true tok None false false None None
  /\ render (st w')
     = DesignInterface (mkDesignInterfaceView false None false false None).
Proof.
  intros Hrun Htok Hstep.
  destruct (run_ui_settled es _ _ initialWorld_settled Hrun)
    as ((HL & HG & HLv & HGv & _) & Hclean & Hq1 & _).
  unfold ui_step in Hstep. cbn [enabled handle] in Hstep.
  destruct (pendingLogin w) as [|n]; [discriminate|].
  injection Hstep as <-. cbn [st].
  destruct (isLoggingIn (st w)) eqn:ELi; [|discriminate].
  specialize (HLv eq_refl). destruct (Hclean HLv) as (_ & Hdr & Hds).
  assert (EG : isGeneratingDesign (st w) = false).
  { destruct (isGeneratingDesign (st w)); [|reflexivity].
    rewrite HGv in HLv by reflexivity. discriminate. }
  rewrite (handleLogin_settle_resolved data tok (st w) Htok).
  rewrite (Hq1 eq_refl), EG, Hdr, Hds. split; reflexivity.
Qed.

Lemma fresh_login_lands_clean_witness :
  let es := (failed_generation_then_logout
               ++ [UserInput credentials; SubmitLogin])%list in
  let w' := world_after ui_step (es ++ [LoginSettles (Resolved token_body)]) in
  st w' = mkState true (VStr "t") None false false None None
  /\ render (st w')
     = DesignInterface (mkDesignInterfaceView false None false false None).
Proof.
  apply (fresh_login_lands_clean
           (failed_generation_then_logout
              ++ [UserInput credentials; SubmitLogin])
           (world_after ui_step
              (failed_generation_then_logout
                 ++ [UserInput credentials; SubmitLogin]))
           _ token_body (VStr "t"));
    vm_compute; reflexivity.
Defined.

End ControlRunsScreen.

(** * Further results on the workflow controller: from a click to the screen *)

Section HandlerScreen.
Import JS App Render Design Shape Scenario Samples.

(** Only an object has a member that is not [undefined]. *)
Lemma get_prop_object (v x : value) (k : string) :
  get_prop v k = Ok x -> x <> VUndefined -> exists fields, v = VObj fields.
Proof.
  destruct v; cbn; try discriminate; try (intros [= <-]; congruence).
  eauto.
Qed.

Lemma wrap_brace_shown (gap indent : nat) (members : list string) :
  shown (Some (wrap "{" "}" gap indent members))
  = Some (wrap "{" "}" gap indent members).
Proof.
  unfold wrap. destruct members; [reflexivity|].
  destruct (Nat.eqb gap 0); reflexivity.
Qed.

Lemma carrier_serialises (v : value) (d : DesignRecommendation) :
  represents_design v d ->
  exists text, stringify 2 v = Some text /\ shown (Some text) = Some text.
Proof.
  intros (recs & tvs & Grecs & Gtabs & _).
  destruct (get_prop_object v recs _ Grecs) as (fields & ->).
  { intros ->. discriminate. }
  eexists. split; [reflexivity | apply wrap_brace_shown].
Qed.

Lemma handleGenerateDesign_run (refs : Refs) (o : Outcome) (s : State)
    (t : string) :
  to_string (token s) = Ok t ->
  exec (handleGenerateDesign refs o) s
  = exec (handleGenerateDesign_settle o)
      (mkState (isLoggedIn s) (token s) None (isLoggingIn s) true
               (designResult s) (databaseSchema s)).
Proof.
  intros H. unfold exec, handleGenerateDesign, bind.
  now rewrite (handleGenerateDesign_click_sends refs s t H).
Qed.

(** X14. From the click to the screen: when the user is logged in, the token
    converts, and the request resolves with a body that carries a design,
    the handler run to its end leaves the design view showing exactly the
    diagram text of that design in the result panel, with no message, no
    spinner and the controls enabled again. *)
Theorem generated_design_is_displayed (refs : Refs) (s : State) (t : string)
    (v : value) (d : DesignRecommendation) :
  isLoggedIn s = true ->
  to_string (token s) = Ok t ->
  represents_design v d ->
  render (exec (handleGenerateDesign refs (Resolved v)) s)
  = DesignInterface
      (mkDesignInterfaceView false None false true (Some (transform_spec d))).
Proof.
  intros HL Ht Hv.
  rewrite (handleGenerateDesign_run refs _ s t Ht).
  rewrite (handleGenerateDesign_settle_success v (transform_spec d));
    [|now apply generateMermaidERD_represents].
  destruct (carrier_serialises v d Hv) as (text & -> & Hshown).
  unfold render, panel_visible.
  cbn [isLoggedIn error isGeneratingDesign designResult databaseSchema].
  rewrite HL, Hshown. reflexivity.
Qed.

Lemma generated_design_is_displayed_witness :
  render (exec (handleGenerateDesign csv_inputs (Resolved annotated_body))
            (mkState true (VStr "t") (Some generate_failed_message)
                     false false None None))
  = DesignInterface
      (mkDesignInterfaceView false None false true
         (Some (transform_spec annotated_design))).
Proof.
  apply (generated_design_is_displayed csv_inputs _ "t");
    [reflexivity | reflexivity |].
  eexists. eexists. split; [reflexivity | split; [reflexivity|]].
  constructor; [|constructor].
  split; [reflexivity | split].
  - eexists. split; [reflexivity|].
    constructor; [split; reflexivity | constructor].
  - exists VNull. split; reflexivity.
Defined.

(** X15. From the click to the screen, when the request is rejected: the
    stored design text and diagram are untouched, so the chart that was on
    the screen before the click is on it again, now together with the
    generation failure message. *)
Theorem rejected_generation_keeps_chart (refs : Refs) (s : State)
    (t : string) :
  isGeneratingDesign s = false ->
  to_string (token s) = Ok t ->
  let s' := exec (handleGenerateDesign refs Rejected) s in
  designResult s' = designResult s
  /\ databaseSchema s' = databaseSchema s
  /\ chart_on_screen s' = chart_on_screen s
  /\ message_on_screen s' = Some generate_failed_message.
Proof.
  intros HG Ht. cbn zeta.
  rewrite (handleGenerateDesign_run refs _ s t Ht).
  rewrite handleGenerateDesign_settle_rejected.
  cbn [isLoggedIn token error isLoggingIn isGeneratingDesign designResult
       databaseSchema].
  unfold chart_on_screen, message_on_screen, render, panel_visible.
  cbn [isLoggedIn token error isLoggingIn isGeneratingDesign designResult
       databaseSchema].
  rewrite HG. destruct (isLoggedIn s); repeat split.
Qed.

Lemma rejected_generation_keeps_chart_witness :
  let s := mkState true (VStr "t") None false false
             (Some "{}") (Some ("erDiagram" ++ nl)) in
  let s' := exec (handleGenerateDesign csv_inputs Rejected) s in
  designResult s' = designResult s
  /\ databaseSchema s' = databaseSchema s
  /\ chart_on_screen s' = chart_on_screen s
  /\ message_on_screen s' = Some generate_failed_message.
Proof.
  apply (rejected_generation_keeps_chart csv_inputs _ "t"); reflexivity.
Defined.

End HandlerScreen.
